(** * The RESTJSON composite encoder ([private/protocol/restjson/encode.go])

    A shallow embedding of [restjson.Encoder]: the routing of the [Set*]
    methods to the REST (path, query, header) and JSON (body) encoders, the
    error latch, and the assembly done by [Encode].

    The two sub-encoders, the marshalers and the request type belong to other
    packages.  They are kept abstract: every method call on a sub-encoder is
    an explicit event of the embedding, and its answer is given by a handler.
    A method of [restjson.Encoder] is a program over those events that
    threads the receiver [*e] as state. *)

From Stdlib Require Import String List Bool Ascii.
Import ListNotations.
Local Open Scope string_scope.

Set Implicit Arguments.

(** Go's [error], observed through its message; [nil] is [None]. *)
Definition error : Type := string.

(* ------------------------------------------------------------------ *)
(** ** Package [protocol] *)

Module protocol.

(** Modelled from the spec: the declaration of [protocol.Target] is not part
    of the sources at hand.  The encoder names [PathTarget], [QueryTarget],
    [HeaderTarget], [HeadersTarget], [BodyTarget] and [PayloadTarget]; the
    data model lists exactly these six variants. *)
Inductive Target : Type :=
| PathTarget
| QueryTarget
| HeaderTarget
| HeadersTarget
| BodyTarget
| PayloadTarget.

Definition Target_eqb (a b : Target) : bool :=
  match a, b with
  | PathTarget, PathTarget
  | QueryTarget, QueryTarget
  | HeaderTarget, HeaderTarget
  | HeadersTarget, HeadersTarget
  | BodyTarget, BodyTarget
  | PayloadTarget, PayloadTarget => true
  | _, _ => false
  end.

End protocol.
Export protocol.

(** What the encoder receives from its collaborators and never inspects:
    the request and its method, the body reader, the marshalers and
    callbacks, the metadata, the rendering of a target under the [%s] verb,
    and the pointers to the two sub-encoders and to the buffer. *)
Class Externals : Type := {
  Request : Type;                       (* *http.Request *)
  Request_Method : Request -> string;   (* req.Method *)
  ReadSeeker : Type;                    (* a non-nil io.ReadSeeker *)
  ValueMarshaler : Type;                (* protocol.ValueMarshaler *)
  StreamMarshaler : Type;               (* protocol.StreamMarshaler *)
  ListEncoderFn : Type;                 (* func(le protocol.ListEncoder) *)
  MapEncoderFn : Type;                  (* func(me protocol.MapEncoder) *)
  FieldMarshaler : Type;                (* protocol.FieldMarshaler *)
  Metadata : Type;                      (* protocol.Metadata *)
  Target_String : Target -> string;     (* a Target printed with %s *)
  RestEncoderPtr : Type;                (* *rest.Encoder *)
  JsonEncoderPtr : Type;                (* *json.Encoder *)
  BufferPtr : Type                      (* a non-nil *bytes.Buffer *)
}.

(* ------------------------------------------------------------------ *)
(** ** Package [fmt], as far as the encoder uses it *)

Module fmt.

(** [fmt.Sprintf] for formats whose only verb is [%s], on operands that
    are already strings and as many as the verbs; every other character of
    the format is copied. *)
Fixpoint Sprintf (format : string) (args : list string) : string :=
  match format with
  | EmptyString => EmptyString
  | String c rest =>
      if (c =? "%")%char then
        match rest with
        | String v rest' =>
            if (v =? "s")%char then
              match args with
              | a :: args' => a ++ Sprintf rest' args'
              | [] => "%!s(MISSING)" ++ Sprintf rest' []
              end
            else String c (String v (Sprintf rest' args))
        | EmptyString => "%!(NOVERB)"
        end
      else String c (Sprintf rest args)
  end.

Definition Errorf (format : string) (args : list string) : error :=
  Sprintf format args.

End fmt.

(* ------------------------------------------------------------------ *)
(** ** Package [strings]: substring test used to read error messages *)

Module strings.

(** [strings.Contains s substr]. *)
Fixpoint Contains (s substr : string) : bool :=
  String.prefix substr s
  || match s with
     | EmptyString => false
     | String _ s' => Contains s' substr
     end.

End strings.

(* ------------------------------------------------------------------ *)
(** ** The methods of the two sub-encoders, as events *)

Module rest.
Section Calls.
Context {Ext : Externals}.

(** The methods of [*rest.Encoder] that [restjson] calls, indexed by the
    type of what they return. *)
Inductive Call : Type -> Type :=
| NewEncoder (req : Request) : Call RestEncoderPtr
| Encode (p : RestEncoderPtr)
    : Call (option Request * option ReadSeeker * option error)
| SetValue (p : RestEncoderPtr) (t : Target) (k : string)
    (v : ValueMarshaler) (meta : Metadata) : Call unit
| SetStream (p : RestEncoderPtr) (t : Target) (k : string)
    (v : StreamMarshaler) (meta : Metadata) : Call unit
| SetList (p : RestEncoderPtr) (t : Target) (k : string)
    (fn : ListEncoderFn) (meta : Metadata) : Call unit
| SetMap (p : RestEncoderPtr) (t : Target) (k : string)
    (fn : MapEncoderFn) (meta : Metadata) : Call unit.
End Calls.
End rest.

Module json.
Section Calls.
Context {Ext : Externals}.

(** The methods of [*json.Encoder] that [restjson] calls. *)
Inductive Call : Type -> Type :=
| NewEncoder : Call JsonEncoderPtr
| Encode (p : JsonEncoderPtr) : Call (option ReadSeeker * option error)
| SetValue (p : JsonEncoderPtr) (t : Target) (k : string)
    (v : ValueMarshaler) (meta : Metadata) : Call unit
| SetList (p : JsonEncoderPtr) (t : Target) (k : string)
    (fn : ListEncoderFn) (meta : Metadata) : Call unit
| SetMap (p : JsonEncoderPtr) (t : Target) (k : string)
    (fn : MapEncoderFn) (meta : Metadata) : Call unit
| SetFields (p : JsonEncoderPtr) (t : Target) (k : string)
    (m : FieldMarshaler) (meta : Metadata) : Call unit.
End Calls.
End json.

(* ------------------------------------------------------------------ *)
(** ** Programs over sub-encoder calls *)

Section Programs.
Context {Ext : Externals}.

(** A call goes to the REST encoder or to the JSON encoder. *)
Inductive Call (X : Type) : Type :=
| Rest (c : rest.Call X)
| Json (c : json.Call X).

(** A program performs calls one after the other and returns a value. *)
Inductive Prog (A : Type) : Type :=
| Ret (a : A)
| Do (X : Type) (c : Call X) (k : X -> Prog A).

Fixpoint pbind {A B : Type} (p : Prog A) (f : A -> Prog B) : Prog B :=
  match p with
  | Ret a => f a
  | Do c k => Do c (fun x => pbind (k x) f)
  end.

(** A call that was made, with its return type forgotten. *)
Definition Event : Type := { X : Type & Call X }.
Definition ev {X : Type} (c : Call X) : Event := existT _ X c.

(** The sub-encoders as the program sees them: a state and, for each
    call, an answer and a next state. *)
Record Handler : Type := {
  Store : Type;
  handle : forall X : Type, Call X -> Store -> X * Store
}.

(** Running a program: its value, the final store and the calls made, in
    order. *)
Fixpoint exec (h : Handler) {A : Type} (p : Prog A) (s : Store h)
  : A * Store h * list Event :=
  match p with
  | Ret a => (a, s, [])
  | Do c k =>
      let '(x, s1) := handle h c s in
      let '(a, s2, evs) := exec h (k x) s1 in
      (a, s2, ev c :: evs)
  end.

Definition result (h : Handler) {A} (p : Prog A) (s : Store h) : A :=
  fst (fst (exec h p s)).
Definition calls (h : Handler) {A} (p : Prog A) (s : Store h) : list Event :=
  snd (exec h p s).

(** A call received by the REST encoder, respectively the JSON encoder. *)
Definition RestEvent : Type := { X : Type & rest.Call X }.
Definition JsonEvent : Type := { X : Type & json.Call X }.
Definition rest_ev {X : Type} (c : rest.Call X) : RestEvent := existT _ X c.
Definition json_ev {X : Type} (c : json.Call X) : JsonEvent := existT _ X c.

(** The calls of a run that went to the REST encoder, and those that went
    to the JSON encoder. *)
Fixpoint to_rest (evs : list Event) : list RestEvent :=
  match evs with
  | [] => []
  | existT _ X (Rest c) :: evs' => rest_ev c :: to_rest evs'
  | existT _ _ (Json _) :: evs' => to_rest evs'
  end.

Fixpoint to_json (evs : list Event) : list JsonEvent :=
  match evs with
  | [] => []
  | existT _ _ (Rest _) :: evs' => to_json evs'
  | existT _ X (Json c) :: evs' => json_ev c :: to_json evs'
  end.
End Programs.

Arguments Ret {_ A} a.
Arguments Do {_ A X} c k.

(* ------------------------------------------------------------------ *)
(** ** Package [restjson] *)

Module restjson.

Definition notNil {A : Type} (o : option A) : bool :=
  match o with
  | Some _ => true
  | None => false
  end.

Section Encoder.
Context {Ext : Externals}.

(** [type Encoder struct]. *)
Record Encoder : Type := {
  method : string;
  reqEncoder : RestEncoderPtr;
  bodyEncoder : JsonEncoderPtr;
  buf : option BufferPtr;
  err : option error
}.

(** The assignment [e.err = x]. *)
Definition set_err (e : Encoder) (x : option error) : Encoder :=
  {| method := method e;
     reqEncoder := reqEncoder e;
     bodyEncoder := bodyEncoder e;
     buf := buf e;
     err := x |}.

(** A method with receiver [e *Encoder]: a program that reads and writes
    [*e] and calls the sub-encoders. *)
Definition M (A : Type) : Type := Encoder -> Prog (A * Encoder).

Definition ret {A : Type} (a : A) : M A := fun e => Ret (a, e).

Definition bind {A B : Type} (m : M A) (f : A -> M B) : M B :=
  fun e => pbind (m e) (fun ae => f (fst ae) (snd ae)).

(** Reading a field of [*e]. *)
Definition gets {A : Type} (f : Encoder -> A) : M A := fun e => Ret (f e, e).

(** Writing [*e]. *)
Definition modify (f : Encoder -> Encoder) : M unit := fun e => Ret (tt, f e).

(** Calling a method of a sub-encoder; [*e] is out of its reach. *)
Definition call {X : Type} (c : Call X) : M X :=
  fun e => Do c (fun x => Ret (x, e)).
End Encoder.

Declare Scope go_scope.
Delimit Scope go_scope with go.
Notation "x <- m ;; k" := (bind m (fun x => k))
  (at level 61, m at next level, right associativity) : go_scope.
Notation "' pat <- m ;; k" := (bind m (fun x => match x with pat => k end))
  (at level 61, pat pattern, m at next level, right associativity) : go_scope.
Notation "m ;; k" := (bind m (fun _ => k))
  (at level 61, right associativity) : go_scope.
Local Open Scope go_scope.

Section Methods.
Context {Ext : Externals}.

(** [func NewEncoder(req) *Encoder], with [req] a [*http.Request]. *)
Definition NewEncoder (req : Request) : Prog Encoder :=
  let method_ := Request_Method req in
  pbind (Do (Rest (rest.NewEncoder req)) Ret) (fun r =>
  pbind (Do (Json json.NewEncoder) Ret) (fun b =>
  Ret {| method := method_;
         reqEncoder := r;
         bodyEncoder := b;
         buf := None;
         err := None |})).

(** [func (e *Encoder) Encode()], returning the request, the body reader
    and the error. *)
Definition Encode : M (option Request * option ReadSeeker * option error) :=
  r <- gets reqEncoder ;;
  '(req, payloadBody, err) <- call (Rest (rest.Encode r)) ;;
  if notNil err then ret (None, None, err) else
  b <- gets bodyEncoder ;;
  '(jsonBody, err) <- call (Json (json.Encode b)) ;;
  if notNil err then ret (None, None, err) else
  let havePayload := notNil payloadBody in
  let haveJSON := notNil jsonBody in
  if Bool.eqb havePayload haveJSON && haveJSON then
    ret (None, None,
         Some (fmt.Errorf
                 "unexpected JSON body and request payload for AWSMarshaler" []))
  else
  let body := payloadBody in
  let body := if negb (notNil body) then jsonBody else body in
  ret (req, body, err).

(** [func (e *Encoder) SetValue(t, k, v, meta)]. *)
Definition SetValue (t : Target) (k : string) (v : ValueMarshaler)
    (meta : Metadata) : M unit :=
  latched <- gets err ;;
  if notNil latched then ret tt else
  match t with
  | PathTarget | QueryTarget | HeaderTarget =>
      r <- gets reqEncoder ;;
      call (Rest (rest.SetValue r t k v meta))
  | BodyTarget | PayloadTarget =>
      m <- gets method ;;
      if (m =? "GET")%string then
        r <- gets reqEncoder ;;
        call (Rest (rest.SetValue r t k v meta))
      else
        b <- gets bodyEncoder ;;
        call (Json (json.SetValue b t k v meta))
  | _ =>
      modify (fun e => set_err e (Some (fmt.Errorf
        "unknown SetValue restjson encode target, %s, %s"
        [Target_String t; k])))
  end.

(** [func (e *Encoder) SetStream(t, k, v, meta)]. *)
Definition SetStream (t : Target) (k : string) (v : StreamMarshaler)
    (meta : Metadata) : M unit :=
  latched <- gets err ;;
  if notNil latched then ret tt else
  match t with
  | PayloadTarget =>
      r <- gets reqEncoder ;;
      call (Rest (rest.SetStream r t k v meta))
  | _ =>
      modify (fun e => set_err e (Some (fmt.Errorf
        "invalid target %s, for SetStream, must be PayloadTarget"
        [Target_String t])))
  end.

(** [func (e *Encoder) SetList(t, k, fn, meta)]. *)
Definition SetList (t : Target) (k : string) (fn : ListEncoderFn)
    (meta : Metadata) : M unit :=
  latched <- gets err ;;
  if notNil latched then ret tt else
  match t with
  | HeaderTarget | QueryTarget =>
      r <- gets reqEncoder ;;
      call (Rest (rest.SetList r t k fn meta))
  | BodyTarget =>
      b <- gets bodyEncoder ;;
      call (Json (json.SetList b t k fn meta))
  | _ =>
      modify (fun e => set_err e (Some (fmt.Errorf
        "unknown SetList restjson encode target, %s, %s"
        [Target_String t; k])))
  end.

(** [func (e *Encoder) SetMap(t, k, fn, meta)]. *)
Definition SetMap (t : Target) (k : string) (fn : MapEncoderFn)
    (meta : Metadata) : M unit :=
  latched <- gets err ;;
  if notNil latched then ret tt else
  match t with
  | QueryTarget | HeadersTarget =>
      r <- gets reqEncoder ;;
      call (Rest (rest.SetMap r t k fn meta))
  | BodyTarget =>
      b <- gets bodyEncoder ;;
      call (Json (json.SetMap b t k fn meta))
  | _ =>
      modify (fun e => set_err e (Some (fmt.Errorf
        "unknown SetMap restjson encode target, %s, %s"
        [Target_String t; k])))
  end.

(** [func (e *Encoder) SetFields(t, k, m, meta)]. *)
Definition SetFields (t : Target) (k : string) (m : FieldMarshaler)
    (meta : Metadata) : M unit :=
  latched <- gets err ;;
  if notNil latched then ret tt else
  match t with
  | PayloadTarget | BodyTarget =>
      b <- gets bodyEncoder ;;
      call (Json (json.SetFields b t k m meta))
  | _ =>
      modify (fun e => set_err e (Some (fmt.Errorf
        "unknown SetMarshaler restjson encode target, %s, %s"
        [Target_String t; k])))
  end.
End Methods.

(** *** Sequences of calls on one encoder *)

Section Sequences.
Context {Ext : Externals}.

(** The five [Set*] methods. *)
Inductive Op : Type := OpSetValue | OpSetStream | OpSetList | OpSetMap | OpSetFields.

(** The name of the method in the source. *)
Definition Op_name (o : Op) : string :=
  match o with
  | OpSetValue => "SetValue"
  | OpSetStream => "SetStream"
  | OpSetList => "SetList"
  | OpSetMap => "SetMap"
  | OpSetFields => "SetFields"
  end.

(** One [Set*] call with its arguments. *)
Inductive SetCall : Type :=
| CallSetValue (t : Target) (k : string) (v : ValueMarshaler) (meta : Metadata)
| CallSetStream (t : Target) (k : string) (v : StreamMarshaler) (meta : Metadata)
| CallSetList (t : Target) (k : string) (fn : ListEncoderFn) (meta : Metadata)
| CallSetMap (t : Target) (k : string) (fn : MapEncoderFn) (meta : Metadata)
| CallSetFields (t : Target) (k : string) (m : FieldMarshaler) (meta : Metadata).

Definition op_of (c : SetCall) : Op :=
  match c with
  | CallSetValue _ _ _ _ => OpSetValue
  | CallSetStream _ _ _ _ => OpSetStream
  | CallSetList _ _ _ _ => OpSetList
  | CallSetMap _ _ _ _ => OpSetMap
  | CallSetFields _ _ _ _ => OpSetFields
  end.

Definition target_of (c : SetCall) : Target :=
  match c with
  | CallSetValue t _ _ _ | CallSetStream t _ _ _ | CallSetList t _ _ _
  | CallSetMap t _ _ _ | CallSetFields t _ _ _ => t
  end.

Definition key_of (c : SetCall) : string :=
  match c with
  | CallSetValue _ k _ _ | CallSetStream _ k _ _ | CallSetList _ k _ _
  | CallSetMap _ k _ _ | CallSetFields _ k _ _ => k
  end.

(** Performing the call on the encoder. *)
Definition perform (c : SetCall) : M unit :=
  match c with
  | CallSetValue t k v meta => SetValue t k v meta
  | CallSetStream t k v meta => SetStream t k v meta
  | CallSetList t k fn meta => SetList t k fn meta
  | CallSetMap t k fn meta => SetMap t k fn meta
  | CallSetFields t k m meta => SetFields t k m meta
  end.

Fixpoint perform_all (cs : list SetCall) : M unit :=
  match cs with
  | [] => ret tt
  | c :: cs' => perform c ;; perform_all cs'
  end.

(** The use the encoder is made for: build it on a request, make the
    [Set*] calls, then [Encode].  The encoder as [Encode] leaves it is
    returned next to the three results. *)
Definition build (req : Request) (cs : list SetCall)
  : Prog (option Request * option ReadSeeker * option error * Encoder) :=
  pbind (NewEncoder req) (perform_all cs ;; Encode).

(** The valid targets of each operation, as the specification lists them
    (sections 4.2 to 4.6); the methods above do not use this table. *)
Definition spec_valid_targets (o : Op) : list Target :=
  match o with
  | OpSetValue => [PathTarget; QueryTarget; HeaderTarget; BodyTarget; PayloadTarget]
  | OpSetStream => [PayloadTarget]
  | OpSetList => [HeaderTarget; QueryTarget; BodyTarget]
  | OpSetMap => [QueryTarget; HeadersTarget; BodyTarget]
  | OpSetFields => [PayloadTarget; BodyTarget]
  end.

Definition spec_valid (o : Op) (t : Target) : bool :=
  existsb (Target_eqb t) (spec_valid_targets o).
End Sequences.

Arguments CallSetValue {Ext} & t k v meta.
Arguments CallSetStream {Ext} & t k v meta.
Arguments CallSetList {Ext} & t k fn meta.
Arguments CallSetMap {Ext} & t k fn meta.
Arguments CallSetFields {Ext} & t k m meta.

End restjson.

(* ------------------------------------------------------------------ *)
(** ** Concrete collaborators, to run the encoder on examples *)

Module demo.

(** Modelled from the spec: stand-ins for the collaborators, whose code is
    in other packages.  A request is its method and the keys rendered on
    it, a reader is its content, a marshaler is the text it would write,
    and a target prints as its variant's name. *)
Definition externals : Externals :=
  {| Request := string * list string;
     Request_Method := fst;
     ReadSeeker := string;
     ValueMarshaler := string;
     StreamMarshaler := string;
     ListEncoderFn := list string;
     MapEncoderFn := list (string * string);
     FieldMarshaler := list (string * string);
     Metadata := unit;
     Target_String := fun t =>
       match t with
       | PathTarget => "Path"
       | QueryTarget => "Query"
       | HeaderTarget => "Header"
       | HeadersTarget => "Headers"
       | BodyTarget => "Body"
       | PayloadTarget => "Payload"
       end;
     RestEncoderPtr := nat;
     JsonEncoderPtr := nat;
     BufferPtr := nat |}.

#[local] Existing Instance externals.

(** The objects behind the two pointers: the REST encoder holds the request
    template, the keys set on it and the stream, if any; the JSON encoder
    holds the keys of the fields set on it. *)
Record store : Type := {
  template : string * list string;
  rendered : list string;
  stream : option string;
  fields : list string
}.

Definition empty : store :=
  {| template := ("", []); rendered := []; stream := None; fields := [] |}.

Definition render (k : string) (s : store) : store :=
  {| template := template s; rendered := (rendered s ++ [k])%list;
     stream := stream s; fields := fields s |}.

Definition field (k : string) (s : store) : store :=
  {| template := template s; rendered := rendered s;
     stream := stream s; fields := (fields s ++ [k])%list |}.

(** Modelled from the spec: the structural encoder finalizes to the request
    and an optional raw-payload reader. *)
Definition handle_rest (X : Type) (c : rest.Call X) (s : store) : X * store :=
  match c in rest.Call X return X * store with
  | rest.NewEncoder req =>
      (1, {| template := req; rendered := []; stream := stream s;
             fields := fields s |})
  | rest.Encode _ =>
      ((Some (fst (template s), (snd (template s) ++ rendered s)%list), stream s, None), s)
  | rest.SetValue _ _ k _ _ => (tt, render k s)
  | rest.SetStream _ _ _ v _ =>
      (tt, {| template := template s; rendered := rendered s;
              stream := Some v; fields := fields s |})
  | rest.SetList _ _ k _ _ => (tt, render k s)
  | rest.SetMap _ _ k _ _ => (tt, render k s)
  end.

(** Modelled from the spec: the body encoder finalizes to a reader, absent
    if nothing was ever set. *)
Definition handle_json (X : Type) (c : json.Call X) (s : store) : X * store :=
  match c in json.Call X return X * store with
  | json.NewEncoder =>
      (2, {| template := template s; rendered := rendered s;
             stream := stream s; fields := [] |})
  | json.Encode _ =>
      ((match fields s with
        | [] => None
        | ks => Some (String.concat "," ks)
        end, None), s)
  | json.SetValue _ _ k _ _ => (tt, field k s)
  | json.SetList _ _ k _ _ => (tt, field k s)
  | json.SetMap _ _ k _ _ => (tt, field k s)
  | json.SetFields _ _ k _ _ => (tt, field k s)
  end.

Definition handler : Handler :=
  {| Store := store;
     handle := fun X c =>
       match c with
       | Rest c' => handle_rest c'
       | Json c' => handle_json c'
       end |}.

(** An encoder in the middle of its life, on a [POST] and on a [GET]
    request, and the same with an error latched. *)
Definition post : restjson.Encoder :=
  {| restjson.method := "POST"; restjson.reqEncoder := 1;
     restjson.bodyEncoder := 2; restjson.buf := None; restjson.err := None |}.

Definition get : restjson.Encoder :=
  {| restjson.method := "GET"; restjson.reqEncoder := 1;
     restjson.bodyEncoder := 2; restjson.buf := None; restjson.err := None |}.

Definition lower : restjson.Encoder :=
  {| restjson.method := "get"; restjson.reqEncoder := 1;
     restjson.bodyEncoder := 2; restjson.buf := None; restjson.err := None |}.

(** [get] after [SetMap(HeaderTarget, "h", fn, meta)] has latched. *)
Definition latched : restjson.Encoder :=
  restjson.set_err get
    (Some "unknown SetMap restjson encode target, Header, h").

(** A store in which a value was rendered on the request and nothing else
    was set, one that holds a stream, and one that holds a stream and a
    body field. *)
Definition only_query : store :=
  {| template := ("GET", []); rendered := ["filter"]; stream := None;
     fields := [] |}.

Definition with_stream : store :=
  {| template := ("POST", []); rendered := []; stream := Some "bytes";
     fields := [] |}.

Definition with_both : store :=
  {| template := ("POST", []); rendered := []; stream := Some "bytes";
     fields := ["meta"] |}.

(** An invalid stream target followed by nothing else. *)
Definition stream_on_header : list restjson.SetCall :=
  [restjson.CallSetStream (Ext:=externals) HeaderTarget "data" "bytes" tt].

(** An invalid map target, then a valid scalar. *)
Definition map_on_header : list restjson.SetCall :=
  [restjson.CallSetMap (Ext:=externals) HeaderTarget "h" [] tt;
   restjson.CallSetValue (Ext:=externals) QueryTarget "q" "v" tt].

End demo.

(* ------------------------------------------------------------------ *)
(** ** What a run shows, and the claims in those terms *)

Import restjson.

Section Observations.
Context {Ext : Externals}.

(** The calls the REST encoder, respectively the JSON encoder, received
    during a run. *)
Definition rest_received (h : Handler) {A : Type} (p : Prog A) (s : Store h)
  : list RestEvent :=
  to_rest (calls h p s).

Definition json_received (h : Handler) {A : Type} (p : Prog A) (s : Store h)
  : list JsonEvent :=
  to_json (calls h p s).

(** The encoder a method leaves behind. *)
Definition encoder_after (h : Handler) {A : Type} (p : Prog (A * Encoder))
    (s : Store h) : Encoder :=
  snd (result h p s).

(** What the two finalizations answer when [Encode] runs from store [s]:
    the REST encoder first, the JSON encoder on the store that leaves. *)
Definition rest_answer (h : Handler) (e : Encoder) (s : Store h)
  : option Request * option ReadSeeker * option error :=
  fst (handle h (Rest (rest.Encode (reqEncoder e))) s).

Definition json_answer (h : Handler) (e : Encoder) (s : Store h)
  : option ReadSeeker * option error :=
  fst (handle h (Json (json.Encode (bodyEncoder e)))
         (snd (handle h (Rest (rest.Encode (reqEncoder e))) s))).

(** The error [Encode] reports when both bodies are there. *)
Definition ambiguous_body : error :=
  "unexpected JSON body and request payload for AWSMarshaler".

(** "Raw-payload reader if present, else structured-body reader, else
    absent", as the specification words the result body. *)
Definition spec_body (payload body : option ReadSeeker) : option ReadSeeker :=
  match payload with
  | Some r => Some r
  | None =>
      match body with
      | Some r => Some r
      | None => None
      end
  end.

(** The scalar rule as the specification states it: on [GET] the value
    reaches the REST encoder and never the JSON encoder, on any other
    method it reaches the JSON encoder and never the REST encoder. *)
Definition scalar_rule (h : Handler) (s : Store h) (e : Encoder)
    (t : Target) (k : string) (v : ValueMarshaler) (meta : Metadata) : Prop :=
  (method e = "GET" ->
     rest_received h (SetValue t k v meta e) s
       = [rest_ev (rest.SetValue (reqEncoder e) t k v meta)]
     /\ json_received h (SetValue t k v meta e) s = [])
  /\ (method e <> "GET" ->
     json_received h (SetValue t k v meta e) s
       = [json_ev (json.SetValue (bodyEncoder e) t k v meta)]
     /\ rest_received h (SetValue t k v meta e) s = []).

(** The stream rule as stated: [PayloadTarget] reaches the REST encoder and
    nothing else; any other target latches an error and reaches neither. *)
Definition stream_rule (h : Handler) (s : Store h) (e : Encoder)
    (t : Target) (k : string) (v : StreamMarshaler) (meta : Metadata) : Prop :=
  (t = PayloadTarget ->
     rest_received h (SetStream t k v meta e) s
       = [rest_ev (rest.SetStream (reqEncoder e) t k v meta)]
     /\ json_received h (SetStream t k v meta e) s = [])
  /\ (t <> PayloadTarget ->
     err (encoder_after h (SetStream t k v meta e) s) <> None
     /\ calls h (SetStream t k v meta e) s = []).

(** The rule for lists, maps and nested fields on [BodyTarget] as stated:
    the JSON encoder receives the call and the REST encoder nothing. *)
Definition body_rule (h : Handler) (s : Store h) (e : Encoder)
    (k : string) (fn : ListEncoderFn) (mfn : MapEncoderFn)
    (m : FieldMarshaler) (meta : Metadata) : Prop :=
  (json_received h (SetList BodyTarget k fn meta e) s
     = [json_ev (json.SetList (bodyEncoder e) BodyTarget k fn meta)]
   /\ rest_received h (SetList BodyTarget k fn meta e) s = [])
  /\ (json_received h (SetMap BodyTarget k mfn meta e) s
     = [json_ev (json.SetMap (bodyEncoder e) BodyTarget k mfn meta)]
   /\ rest_received h (SetMap BodyTarget k mfn meta e) s = [])
  /\ (json_received h (SetFields BodyTarget k m meta e) s
     = [json_ev (json.SetFields (bodyEncoder e) BodyTarget k m meta)]
   /\ rest_received h (SetFields BodyTarget k m meta e) s = []).

(** A message names the operation and the key of a call. *)
Definition names_op_and_key (c : SetCall) (msg : string) : Prop :=
  strings.Contains msg (Op_name (op_of c)) = true
  /\ strings.Contains msg (key_of c) = true.

(** What the message of each operation does carry: operation and key for
    [SetValue], [SetList] and [SetMap]; operation and target for
    [SetStream]; the key for [SetFields]. *)
Definition names_as_coded (c : SetCall) (msg : string) : Prop :=
  match op_of c with
  | OpSetValue | OpSetList | OpSetMap => names_op_and_key c msg
  | OpSetStream =>
      strings.Contains msg (Op_name (op_of c)) = true
      /\ strings.Contains msg (Target_String (target_of c)) = true
  | OpSetFields => strings.Contains msg (key_of c) = true
  end.

(** The error a call leaves in the latch of an encoder that had none. *)
Definition latched_by (c : SetCall) (e : Encoder) (msg : string) : Prop :=
  perform c e = Ret (tt, set_err e (Some msg)).
End Observations.

(* ------------------------------------------------------------------ *)
(** ** The error latch *)

(* ------------------------------------------------------------------ *)
(** ** Sequences of calls, as the [switch] statements accept them *)

Section Accepted.
Context {Ext : Externals}.

(** The call has a [case] of its own in the [switch] of its method, that
    is, it does not end in the [default] branch. *)
Definition accepted (c : SetCall) : bool :=
  match c with
  | CallSetValue t _ _ _ =>
      match t with
      | PathTarget | QueryTarget | HeaderTarget | BodyTarget | PayloadTarget => true
      | _ => false
      end
  | CallSetStream t _ _ _ =>
      match t with
      | PayloadTarget => true
      | _ => false
      end
  | CallSetList t _ _ _ =>
      match t with
      | HeaderTarget | QueryTarget | BodyTarget => true
      | _ => false
      end
  | CallSetMap t _ _ _ =>
      match t with
      | QueryTarget | HeadersTarget | BodyTarget => true
      | _ => false
      end
  | CallSetFields t _ _ _ =>
      match t with
      | PayloadTarget | BodyTarget => true
      | _ => false
      end
  end.

(** The calls of a sequence that come before the first one that is not
    accepted. *)
Fixpoint effective (cs : list SetCall) : list SetCall :=
  match cs with
  | [] => []
  | c :: cs' => if accepted c then c :: effective cs' else []
  end.

(** The pointers the two constructors answer when [NewEncoder] runs from
    store [s]. *)
Definition new_rest (h : Handler) (req : Request) (s : Store h)
  : RestEncoderPtr :=
  fst (handle h (Rest (rest.NewEncoder req)) s).

Definition new_json (h : Handler) (req : Request) (s : Store h)
  : JsonEncoderPtr :=
  fst (handle h (Json json.NewEncoder)
         (snd (handle h (Rest (rest.NewEncoder req)) s))).
End Accepted.

(* ------------------------------------------------------------------ *)
(** ** Collaborators whose finalization fails *)

Module failing.

#[local] Existing Instance demo.externals.

(** Modelled from the spec: a structural encoder whose finalization reports
    the error [re], if one is given, and is [demo.handle_rest] otherwise. *)
Definition handle_rest (re : option error) (X : Type) (c : rest.Call X)
    (s : demo.store) : X * demo.store :=
  match c in rest.Call X0 return X0 * demo.store with
  | rest.Encode p =>
      match re with
      | Some x => ((None, None, Some x), s)
      | None => demo.handle_rest (rest.Encode p) s
      end
  | rest.NewEncoder req => demo.handle_rest (rest.NewEncoder req) s
  | rest.SetValue p t k v meta => demo.handle_rest (rest.SetValue p t k v meta) s
  | rest.SetStream p t k v meta => demo.handle_rest (rest.SetStream p t k v meta) s
  | rest.SetList p t k fn meta => demo.handle_rest (rest.SetList p t k fn meta) s
  | rest.SetMap p t k fn meta => demo.handle_rest (rest.SetMap p t k fn meta) s
  end.

(** Modelled from the spec: a body encoder whose finalization reports the
    error [je], if one is given, and is [demo.handle_json] otherwise. *)
Definition handle_json (je : option error) (X : Type) (c : json.Call X)
    (s : demo.store) : X * demo.store :=
  match c in json.Call X0 return X0 * demo.store with
  | json.Encode p =>
      match je with
      | Some x => ((None, Some x), s)
      | None => demo.handle_json (json.Encode p) s
      end
  | json.NewEncoder => demo.handle_json json.NewEncoder s
  | json.SetValue p t k v meta => demo.handle_json (json.SetValue p t k v meta) s
  | json.SetList p t k fn meta => demo.handle_json (json.SetList p t k fn meta) s
  | json.SetMap p t k fn meta => demo.handle_json (json.SetMap p t k fn meta) s
  | json.SetFields p t k m meta => demo.handle_json (json.SetFields p t k m meta) s
  end.

Definition handler (re je : option error) : Handler :=
  {| Store := demo.store;
     handle := fun X c =>
       match c with
       | Rest c' => handle_rest re c'
       | Json c' => handle_json je c'
       end |}.

(** Two accepted calls, one that is not, and one more accepted call. *)
Definition mixed : list SetCall :=
  [CallSetValue (Ext:=demo.externals) QueryTarget "filter" "active" tt;
   CallSetList (Ext:=demo.externals) BodyTarget "tags" ["a"; "b"] tt;
   CallSetMap (Ext:=demo.externals) HeaderTarget "h" [] tt;
   CallSetFields (Ext:=demo.externals) BodyTarget "meta" [] tt].

Definition all_accepted : list SetCall :=
  [CallSetValue (Ext:=demo.externals) QueryTarget "filter" "active" tt;
   CallSetList (Ext:=demo.externals) BodyTarget "tags" ["a"; "b"] tt].

End failing.

Unset Implicit Arguments.

(** Unfolds a method down to the calls it makes. *)
Ltac method_body :=
  unfold perform, SetValue, SetStream, SetList, SetMap, SetFields,
    bind, gets, modify, ret, call; cbn [pbind fst snd].

Section Latch.
Context {Ext : Externals}.

Lemma perform_latched (c : SetCall) (e : Encoder) (x : error) :
  err e = Some x -> perform c e = Ret (tt, e).
Proof.
  intros Hx. destruct c; method_body; rewrite Hx; reflexivity.
Qed.

Lemma perform_all_latched (cs : list SetCall) (e : Encoder) (x : error) :
  err e = Some x -> perform_all cs e = Ret (tt, e).
Proof.
  intros Hx. induction cs as [|c cs IH]; [reflexivity|].
  cbn [perform_all]. unfold bind.
  rewrite (perform_latched c e x Hx). cbn [pbind fst snd]. exact IH.
Qed.

Lemma perform_invalid (c : SetCall) (e : Encoder) :
  err e = None ->
  spec_valid (op_of c) (target_of c) = false ->
  exists msg, perform c e = Ret (tt, set_err e (Some msg)).
Proof.
  intros He Hbad.
  destruct c as [t k v meta|t k v meta|t k fn meta|t k fn meta|t k m meta];
    destruct t; cbn in Hbad; try discriminate Hbad;
    eexists; method_body; rewrite He; reflexivity.
Qed.

(** C4. Once an error is latched, a [Set*] call does nothing: it makes no
    call on either sub-encoder, the store behind them is as before, and the
    encoder, its latched error included, is as before.  The same holds for
    any sequence of such calls, so the first error stays. *)
Theorem latched_set_is_noop (c : SetCall) (e : Encoder) (x : error) :
  err e = Some x ->
  (forall (h : Handler) (s : Store h),
      exec h (perform c e) s = ((tt, e), s, []))
  /\ (forall (cs : list SetCall) (h : Handler) (s : Store h),
      exec h (perform_all cs e) s = ((tt, e), s, [])).
Proof.
  intros Hx. split.
  - intros h s. rewrite (perform_latched c e x Hx). reflexivity.
  - intros cs h s. rewrite (perform_all_latched cs e x Hx). reflexivity.
Qed.

(** C8. With no error latched, a [Set*] call whose target is not among the
    valid targets of its operation latches an error and does nothing else:
    no call reaches a sub-encoder and the store behind them is as before. *)
Theorem invalid_target_latches (c : SetCall) (e : Encoder) :
  err e = None ->
  spec_valid (op_of c) (target_of c) = false ->
  exists msg : error,
    forall (h : Handler) (s : Store h),
      exec h (perform c e) s = ((tt, set_err e (Some msg)), s, []).
Proof.
  intros He Hbad.
  destruct (perform_invalid c e He Hbad) as [msg Hp].
  exists msg. intros h s. rewrite Hp. reflexivity.
Qed.
End Latch.

(** On a [GET] encoder that latched on [SetMap(HeaderTarget, ...)], a valid
    scalar call changes nothing. *)
Lemma latched_set_is_noop_witness :
  err demo.latched = Some "unknown SetMap restjson encode target, Header, h"
  /\ exec demo.handler
       (perform (CallSetValue (Ext:=demo.externals) QueryTarget "q" "v" tt)
          demo.latched) demo.only_query
     = ((tt, demo.latched), demo.only_query, []).
Proof.
  split; [reflexivity|].
  apply (latched_set_is_noop
           (CallSetValue (Ext:=demo.externals) QueryTarget "q" "v" tt)
           demo.latched "unknown SetMap restjson encode target, Header, h").
  reflexivity.
Defined.

(** [HeaderTarget] is no target of [SetMap]: the call latches. *)
Lemma invalid_target_latches_witness :
  err demo.post = None
  /\ spec_valid OpSetMap HeaderTarget = false
  /\ exists msg : error,
       forall (h : Handler) (s : Store h),
         exec h (perform (CallSetMap (Ext:=demo.externals) HeaderTarget "h" [] tt)
                   demo.post) s
         = ((tt, set_err demo.post (Some msg)), s, []).
Proof.
  split; [reflexivity|]. split; [reflexivity|].
  apply (invalid_target_latches
           (CallSetMap (Ext:=demo.externals) HeaderTarget "h" [] tt) demo.post);
    reflexivity.
Defined.

(* ------------------------------------------------------------------ *)
(** ** Routing *)

Section Routing.
Context {Ext : Externals}.

Lemma exec_call (h : Handler) (X : Type) (c : Call X) (e : Encoder)
    (s : Store h) :
  exec h (call c e) s
  = ((fst (handle h c s), e), snd (handle h c s), [ev c]).
Proof.
  unfold call. cbn [exec]. destruct (handle h c s) as [x s1]. reflexivity.
Qed.

Lemma received_call_rest (h : Handler) (X : Type) (c : rest.Call X)
    (e : Encoder) (s : Store h) :
  rest_received h (call (Rest c) e) s = [rest_ev c]
  /\ json_received h (call (Rest c) e) s = [].
Proof.
  unfold rest_received, json_received, calls. rewrite exec_call.
  split; reflexivity.
Qed.

Lemma received_call_json (h : Handler) (X : Type) (c : json.Call X)
    (e : Encoder) (s : Store h) :
  json_received h (call (Json c) e) s = [json_ev c]
  /\ rest_received h (call (Json c) e) s = [].
Proof.
  unfold rest_received, json_received, calls. rewrite exec_call.
  split; reflexivity.
Qed.

(** The five methods on an encoder without a latched error, case by case
    of the [switch]. *)
Lemma SetValue_structural (e : Encoder) (t : Target) (k : string)
    (v : ValueMarshaler) (meta : Metadata) :
  err e = None ->
  t = PathTarget \/ t = QueryTarget \/ t = HeaderTarget ->
  SetValue t k v meta e = call (Rest (rest.SetValue (reqEncoder e) t k v meta)) e.
Proof.
  intros He [Ht|[Ht|Ht]]; subst t; method_body; rewrite He; reflexivity.
Qed.

Lemma SetValue_body_GET (e : Encoder) (t : Target) (k : string)
    (v : ValueMarshaler) (meta : Metadata) :
  err e = None ->
  t = BodyTarget \/ t = PayloadTarget ->
  method e = "GET" ->
  SetValue t k v meta e = call (Rest (rest.SetValue (reqEncoder e) t k v meta)) e.
Proof.
  intros He [Ht|Ht] Hm; subst t; method_body; rewrite He;
    cbn [pbind fst snd notNil]; rewrite Hm; reflexivity.
Qed.

Lemma SetValue_body_other (e : Encoder) (t : Target) (k : string)
    (v : ValueMarshaler) (meta : Metadata) :
  err e = None ->
  t = BodyTarget \/ t = PayloadTarget ->
  method e <> "GET" ->
  SetValue t k v meta e = call (Json (json.SetValue (bodyEncoder e) t k v meta)) e.
Proof.
  intros He Ht Hm. apply String.eqb_neq in Hm.
  destruct Ht as [Ht|Ht]; subst t; method_body; rewrite He;
    cbn [pbind fst snd notNil]; rewrite Hm; reflexivity.
Qed.

Lemma SetStream_payload (e : Encoder) (k : string) (v : StreamMarshaler)
    (meta : Metadata) :
  err e = None ->
  SetStream PayloadTarget k v meta e
  = call (Rest (rest.SetStream (reqEncoder e) PayloadTarget k v meta)) e.
Proof.
  intros He. method_body. rewrite He. reflexivity.
Qed.

Lemma SetStream_other (e : Encoder) (t : Target) (k : string)
    (v : StreamMarshaler) (meta : Metadata) :
  err e = None ->
  t <> PayloadTarget ->
  SetStream t k v meta e
  = Ret (tt, set_err e (Some (fmt.Errorf
      "invalid target %s, for SetStream, must be PayloadTarget"
      [Target_String t]))).
Proof.
  intros He Ht. destruct t; try congruence; method_body; rewrite He;
    reflexivity.
Qed.

Lemma SetList_body (e : Encoder) (k : string) (fn : ListEncoderFn)
    (meta : Metadata) :
  err e = None ->
  SetList BodyTarget k fn meta e
  = call (Json (json.SetList (bodyEncoder e) BodyTarget k fn meta)) e.
Proof.
  intros He. method_body. rewrite He. reflexivity.
Qed.

Lemma SetMap_body (e : Encoder) (k : string) (fn : MapEncoderFn)
    (meta : Metadata) :
  err e = None ->
  SetMap BodyTarget k fn meta e
  = call (Json (json.SetMap (bodyEncoder e) BodyTarget k fn meta)) e.
Proof.
  intros He. method_body. rewrite He. reflexivity.
Qed.

Lemma SetFields_body (e : Encoder) (t : Target) (k : string)
    (m : FieldMarshaler) (meta : Metadata) :
  err e = None ->
  t = PayloadTarget \/ t = BodyTarget ->
  SetFields t k m meta e
  = call (Json (json.SetFields (bodyEncoder e) t k m meta)) e.
Proof.
  intros He [Ht|Ht]; subst t; method_body; rewrite He; reflexivity.
Qed.

(** With no error latched, a call on a target that the specification lists
    as valid for its operation is exactly one call on a sub-encoder; with
    [perform_invalid], the table of valid targets is the one of the code. *)
Lemma valid_target_forwards (c : SetCall) (e : Encoder) :
  err e = None ->
  spec_valid (op_of c) (target_of c) = true ->
  exists d : Call unit, perform c e = call d e.
Proof.
  intros He Hok.
  destruct c as [t k v meta|t k v meta|t k fn meta|t k fn meta|t k m meta];
    destruct t; cbn in Hok; try discriminate Hok;
    try (eexists; method_body; rewrite He; reflexivity);
    (destruct (String.eqb (method e) "GET") eqn:Hm;
     eexists; method_body; rewrite He; cbn [pbind fst snd notNil];
     rewrite Hm; reflexivity).
Qed.

(** C2, amended. With no error latched, a scalar set on [BodyTarget] or
    [PayloadTarget] goes to the REST encoder and not to the JSON encoder
    when the method is exactly ["GET"], and to the JSON encoder and not to
    the REST encoder for any other method string. *)
Theorem scalar_body_routing (h : Handler) (s : Store h) (e : Encoder)
    (t : Target) (k : string) (v : ValueMarshaler) (meta : Metadata) :
  err e = None ->
  t = BodyTarget \/ t = PayloadTarget ->
  scalar_rule h s e t k v meta.
Proof.
  intros He Ht. split; intros Hm.
  - rewrite (SetValue_body_GET e t k v meta He Ht Hm). apply received_call_rest.
  - rewrite (SetValue_body_other e t k v meta He Ht Hm). apply received_call_json.
Qed.

(** C5, amended. With no error latched and whatever the method, a stream
    set on [PayloadTarget] goes to the REST encoder and not to the JSON
    encoder; on any other target the call latches an error and reaches
    neither sub-encoder. *)
Theorem stream_routing (h : Handler) (s : Store h) (e : Encoder)
    (t : Target) (k : string) (v : StreamMarshaler) (meta : Metadata) :
  err e = None ->
  stream_rule h s e t k v meta.
Proof.
  intros He. split; intros Ht.
  - subst t. rewrite (SetStream_payload e k v meta He). apply received_call_rest.
  - rewrite (SetStream_other e t k v meta He Ht). split; [discriminate|reflexivity].
Qed.

(** C7, amended. With no error latched and whatever the method, ["GET"]
    included, [SetList], [SetMap] and [SetFields] on [BodyTarget] go to the
    JSON encoder and not to the REST encoder. *)
Theorem collections_body_routing (h : Handler) (s : Store h) (e : Encoder)
    (k : string) (fn : ListEncoderFn) (mfn : MapEncoderFn)
    (m : FieldMarshaler) (meta : Metadata) :
  err e = None ->
  body_rule h s e k fn mfn m meta.
Proof.
  intros He. repeat split.
  - rewrite (SetList_body e k fn meta He). apply received_call_json.
  - rewrite (SetList_body e k fn meta He). apply received_call_json.
  - rewrite (SetMap_body e k mfn meta He). apply received_call_json.
  - rewrite (SetMap_body e k mfn meta He). apply received_call_json.
  - rewrite (SetFields_body e BodyTarget k m meta He (or_intror eq_refl)).
    apply received_call_json.
  - rewrite (SetFields_body e BodyTarget k m meta He (or_intror eq_refl)).
    apply received_call_json.
Qed.
End Routing.

(** The states of the examples below come from runs of the code: [get]
    and [only_query] from a new encoder and one query value, [latched] from
    a [SetMap] on [HeaderTarget] after that. *)
Example only_query_is_reached :
  exec demo.handler
    (pbind (NewEncoder (Ext:=demo.externals) ("GET", []))
       (SetValue (Ext:=demo.externals) QueryTarget "filter" "active" tt))
    demo.empty
  = ((tt, demo.get), demo.only_query,
     [ev (Rest (rest.NewEncoder (Ext:=demo.externals) ("GET", [])));
      ev (Json (json.NewEncoder (Ext:=demo.externals)));
      ev (Rest (rest.SetValue (Ext:=demo.externals) 1 QueryTarget
                  "filter" "active" tt))]).
Proof. reflexivity. Qed.

Example latched_is_reached :
  exec demo.handler
    (perform (CallSetMap (Ext:=demo.externals) HeaderTarget "h" [] tt) demo.get)
    demo.only_query
  = ((tt, demo.latched), demo.only_query, []).
Proof. reflexivity. Qed.

(** On ["GET"] the scalar is redirected; on ["get"] it is not. *)
Lemma scalar_body_routing_witness :
  (err demo.get = None /\ err demo.lower = None)
  /\ scalar_rule demo.handler demo.empty demo.get BodyTarget "name" "alice" tt
  /\ scalar_rule demo.handler demo.empty demo.lower BodyTarget "name" "alice" tt.
Proof.
  split; [split; reflexivity|]. split.
  - apply (scalar_body_routing demo.handler demo.empty demo.get
             BodyTarget "name" "alice" tt); [reflexivity|left; reflexivity].
  - apply (scalar_body_routing demo.handler demo.empty demo.lower
             BodyTarget "name" "alice" tt); [reflexivity|left; reflexivity].
Defined.

(** C2 as stated fails on an encoder that has latched: the scalar reaches
    no sub-encoder at all. *)
Lemma scalar_rule_fails_when_latched :
  ~ scalar_rule demo.handler demo.only_query demo.latched
      BodyTarget "name" "alice" tt.
Proof.
  intros [Hget _]. destruct (Hget eq_refl) as [Hrest _].
  cbv in Hrest. discriminate Hrest.
Qed.

Lemma stream_routing_witness :
  err demo.post = None
  /\ stream_rule demo.handler demo.empty demo.post PayloadTarget "data" "bytes" tt
  /\ stream_rule demo.handler demo.empty demo.get HeaderTarget "data" "bytes" tt.
Proof.
  split; [reflexivity|]. split.
  - apply (stream_routing demo.handler demo.empty demo.post
             PayloadTarget "data" "bytes" tt). reflexivity.
  - apply (stream_routing demo.handler demo.empty demo.get
             HeaderTarget "data" "bytes" tt). reflexivity.
Defined.

(** C5 as stated fails on an encoder that has latched: the stream on
    [PayloadTarget] is dropped. *)
Lemma stream_rule_fails_when_latched :
  ~ stream_rule demo.handler demo.only_query demo.latched
      PayloadTarget "data" "bytes" tt.
Proof.
  intros [Hpayload _]. destruct (Hpayload eq_refl) as [Hrest _].
  cbv in Hrest. discriminate Hrest.
Qed.

Lemma collections_body_routing_witness :
  err demo.get = None
  /\ body_rule demo.handler demo.empty demo.get "tags" ["a"; "b"]
       [("k", "v")] [("f", "x")] tt.
Proof.
  split; [reflexivity|].
  apply (collections_body_routing demo.handler demo.empty demo.get
           "tags" ["a"; "b"] [("k", "v")] [("f", "x")] tt).
  reflexivity.
Defined.

(** C7 as stated fails on an encoder that has latched: the list on
    [BodyTarget] is dropped. *)
Lemma body_rule_fails_when_latched :
  ~ body_rule demo.handler demo.only_query demo.latched "tags" ["a"; "b"]
      [("k", "v")] [("f", "x")] tt.
Proof.
  intros [[Hjson _] _]. cbv in Hjson. discriminate Hjson.
Qed.

(* ------------------------------------------------------------------ *)
(** ** Assembly *)

(** Runs [Encode] up to the answers of the two finalizations. *)
Ltac encode_body :=
  unfold Encode, bind, gets, call, ret; cbn [pbind exec fst snd].

Section Assembly.
Context {Ext : Externals}.

(** [Encode] when the REST encoder fails to finalize. *)
Lemma exec_Encode_rest_error (h : Handler) (s s1 : Store h) (e : Encoder)
    (req : option Request) (p : option ReadSeeker) (x : error) :
  handle h (Rest (rest.Encode (reqEncoder e))) s = ((req, p, Some x), s1) ->
  exec h (Encode e) s
  = (((None, None, Some x), e), s1, [ev (Rest (rest.Encode (reqEncoder e)))]).
Proof.
  intros Hr. encode_body. rewrite Hr. reflexivity.
Qed.

(** [Encode] when the JSON encoder fails to finalize. *)
Lemma exec_Encode_json_error (h : Handler) (s s1 s2 : Store h) (e : Encoder)
    (req : option Request) (p j : option ReadSeeker) (x : error) :
  handle h (Rest (rest.Encode (reqEncoder e))) s = ((req, p, None), s1) ->
  handle h (Json (json.Encode (bodyEncoder e))) s1 = ((j, Some x), s2) ->
  exec h (Encode e) s
  = (((None, None, Some x), e), s2,
     [ev (Rest (rest.Encode (reqEncoder e)));
      ev (Json (json.Encode (bodyEncoder e)))]).
Proof.
  intros Hr Hj. encode_body. rewrite Hr. cbn [pbind exec fst snd notNil].
  rewrite Hj. reflexivity.
Qed.

(** [Encode] when both finalizations succeed. *)
Lemma exec_Encode_finalized (h : Handler) (s s1 s2 : Store h) (e : Encoder)
    (req : option Request) (p j : option ReadSeeker) :
  handle h (Rest (rest.Encode (reqEncoder e))) s = ((req, p, None), s1) ->
  handle h (Json (json.Encode (bodyEncoder e))) s1 = ((j, None), s2) ->
  exec h (Encode e) s
  = (((if notNil p && notNil j
       then (None, None, Some ambiguous_body)
       else (req, spec_body p j, None)), e), s2,
     [ev (Rest (rest.Encode (reqEncoder e)));
      ev (Json (json.Encode (bodyEncoder e)))]).
Proof.
  intros Hr Hj. encode_body. rewrite Hr. cbn [pbind exec fst snd notNil].
  rewrite Hj. destruct p, j; reflexivity.
Qed.

(** The three ways [Encode] can go, by what the finalizations answer. *)
Lemma Encode_cases (h : Handler) (s : Store h) (e : Encoder) :
  (exists x, snd (rest_answer h e s) = Some x
             /\ result h (Encode e) s = ((None, None, Some x), e))
  \/ (exists x, snd (rest_answer h e s) = None
                /\ snd (json_answer h e s) = Some x
                /\ result h (Encode e) s = ((None, None, Some x), e))
  \/ (snd (rest_answer h e s) = None
      /\ snd (json_answer h e s) = None
      /\ result h (Encode e) s
         = ((if notNil (snd (fst (rest_answer h e s)))
                && notNil (fst (json_answer h e s))
             then (None, None, Some ambiguous_body)
             else (fst (fst (rest_answer h e s)),
                   spec_body (snd (fst (rest_answer h e s)))
                     (fst (json_answer h e s)), None)), e)).
Proof.
  unfold rest_answer, json_answer, result.
  destruct (handle h (Rest (rest.Encode (reqEncoder e))) s)
    as [[[req p] [x|]] s1] eqn:Hr.
  - left. exists x. rewrite (exec_Encode_rest_error h s s1 e req p x Hr).
    split; reflexivity.
  - cbn [fst snd].
    destruct (handle h (Json (json.Encode (bodyEncoder e))) s1)
      as [[j [x|]] s2] eqn:Hj.
    + right; left. exists x.
      rewrite (exec_Encode_json_error h s s1 s2 e req p j x Hr Hj).
      repeat split; reflexivity.
    + right; right.
      rewrite (exec_Encode_finalized h s s1 s2 e req p j Hr Hj).
      repeat split; reflexivity.
Qed.

(** [Encode] does not read the latch. *)
Lemma Encode_never_reads_latch (h : Handler) (s : Store h) (e : Encoder)
    (x : option error) :
  fst (result h (Encode (set_err e x)) s) = fst (result h (Encode e) s).
Proof.
  unfold result. encode_body.
  change (reqEncoder (set_err e x)) with (reqEncoder e).
  destruct (handle h (Rest (rest.Encode (reqEncoder e))) s)
    as [[[req p] [y|]] s1]; [reflexivity|].
  cbn [pbind exec fst snd notNil].
  change (bodyEncoder (set_err e x)) with (bodyEncoder e).
  destruct (handle h (Json (json.Encode (bodyEncoder e))) s1)
    as [[j [y|]] s2]; [reflexivity|].
  cbn [pbind exec fst snd notNil]. destruct p, j; reflexivity.
Qed.

(** C3. When the REST encoder finalizes to a raw-payload reader and the
    JSON encoder finalizes to a body reader, [Encode] returns the error
    for the ambiguous body, and neither a request nor a body. *)
Theorem both_bodies_is_an_error (h : Handler) (s : Store h) (e : Encoder)
    (req : option Request) (p j : ReadSeeker) :
  rest_answer h e s = (req, Some p, None) ->
  json_answer h e s = (Some j, None) ->
  fst (result h (Encode e) s) = (None, None, Some ambiguous_body).
Proof.
  intros Hr Hj.
  destruct (Encode_cases h s e) as [[x [Hx _]]|[[x [_ [Hx _]]]|[_ [_ Hres]]]].
  - rewrite Hr in Hx. discriminate Hx.
  - rewrite Hj in Hx. discriminate Hx.
  - rewrite Hres, Hr, Hj. reflexivity.
Qed.

(** C6. When [Encode] succeeds, the body it returns is the raw-payload
    reader if there is one, else the body reader of the JSON encoder, else
    none; and when both finalizations succeed without a reader, [Encode]
    succeeds with the request and no body. *)
Theorem body_of_successful_Encode (h : Handler) (s : Store h) (e : Encoder) :
  (forall (req : option Request) (body : option ReadSeeker),
      fst (result h (Encode e) s) = (req, body, None) ->
      body = spec_body (snd (fst (rest_answer h e s)))
                       (fst (json_answer h e s)))
  /\ (forall req : option Request,
      rest_answer h e s = (req, None, None) ->
      json_answer h e s = (None, None) ->
      fst (result h (Encode e) s) = (req, None, None)).
Proof.
  split.
  - intros req body Hok.
    destruct (Encode_cases h s e) as [[x [_ Hres]]|[[x [_ [_ Hres]]]|[_ [_ Hres]]]];
      rewrite Hres in Hok; cbn [fst] in Hok; try discriminate Hok.
    destruct (notNil (snd (fst (rest_answer h e s)))
              && notNil (fst (json_answer h e s))); [discriminate Hok|].
    injection Hok as _ Hbody. symmetry. exact Hbody.
  - intros req Hr Hj.
    destruct (Encode_cases h s e) as [[x [Hx _]]|[[x [_ [Hx _]]]|[_ [_ Hres]]]].
    + rewrite Hr in Hx. discriminate Hx.
    + rewrite Hj in Hx. discriminate Hx.
    + rewrite Hres, Hr, Hj. reflexivity.
Qed.

(** C10. [Encode] leaves the encoder as it found it: method, latched
    error, pointers to the sub-encoders and buffer are what they were. *)
Theorem Encode_leaves_encoder (h : Handler) (s : Store h) (e : Encoder) :
  encoder_after h (Encode e) s = e.
Proof.
  unfold encoder_after.
  destruct (Encode_cases h s e) as [[x [_ Hres]]|[[x [_ [_ Hres]]]|[_ [_ Hres]]]];
    rewrite Hres; reflexivity.
Qed.
End Assembly.

(** A stream and a body field were both set. *)
Lemma both_bodies_is_an_error_witness :
  rest_answer demo.handler demo.post demo.with_both
    = (Some ("POST", []), Some "bytes", None)
  /\ json_answer demo.handler demo.post demo.with_both = (Some "meta", None)
  /\ fst (result demo.handler (Encode demo.post) demo.with_both)
     = (None, None, Some ambiguous_body).
Proof.
  split; [reflexivity|]. split; [reflexivity|].
  apply (both_bodies_is_an_error demo.handler demo.with_both demo.post
           (Some ("POST", [])) "bytes" "meta"); reflexivity.
Defined.

(** A [GET] with one query value: no body and no error; a [POST] with a
    stream: the stream is the body. *)
Lemma body_of_successful_Encode_witness :
  fst (result demo.handler (Encode demo.get) demo.only_query)
    = (Some ("GET", ["filter"]), None, None)
  /\ (fst (result demo.handler (Encode demo.post) demo.with_stream)
        = (Some ("POST", []), Some "bytes", None)
      /\ Some "bytes"
         = spec_body
             (snd (fst (rest_answer demo.handler demo.post demo.with_stream)))
             (fst (json_answer demo.handler demo.post demo.with_stream))).
Proof.
  split.
  - apply (proj2 (body_of_successful_Encode demo.handler demo.only_query
                    demo.get) (Some ("GET", ["filter"]))); reflexivity.
  - split; [reflexivity|].
    apply (proj1 (body_of_successful_Encode demo.handler demo.with_stream
                    demo.post) (Some ("POST", [])) (Some "bytes")).
    reflexivity.
Defined.

(** C1, on the code. A [POST] encoder is given a stream on [HeaderTarget],
    which latches an error, and [Encode] is called: the latch holds the
    error, and [Encode] returns the request and no error. *)
Theorem latched_error_is_dropped :
  result demo.handler
    (build (Ext:=demo.externals) ("POST", []) demo.stream_on_header)
    demo.empty
  = ((Some ("POST", []), None, None),
     set_err demo.post
       (Some "invalid target Header, for SetStream, must be PayloadTarget")).
Proof. vm_compute. reflexivity. Qed.

(** The scenario of the specification: [SetMap] on [HeaderTarget], then a
    scalar on [QueryTarget], then [Encode].  No error comes back. *)
Example latched_map_error_is_dropped :
  fst (result demo.handler
         (build (Ext:=demo.externals) ("POST", []) demo.map_on_header)
         demo.empty)
  = (Some ("POST", []), None, None).
Proof. vm_compute. reflexivity. Qed.

(* ------------------------------------------------------------------ *)
(** ** The messages of routing errors *)

Section Substrings.

Lemma prefix_append (x r : string) : String.prefix x (x ++ r) = true.
Proof.
  induction x as [|c x IH]; [destruct r; reflexivity|].
  cbn. destruct (ascii_dec c c) as [_|Hc]; [exact IH|congruence].
Qed.

Lemma Contains_here (s x : string) :
  String.prefix x s = true -> strings.Contains s x = true.
Proof.
  intros Hp. destruct s; cbn [strings.Contains]; rewrite Hp; reflexivity.
Qed.

Lemma Contains_cons (c : ascii) (s x : string) :
  strings.Contains s x = true -> strings.Contains (String c s) x = true.
Proof.
  intros Hs. cbn [strings.Contains]. rewrite Hs. apply orb_true_r.
Qed.

Lemma Contains_app_r (a b x : string) :
  strings.Contains b x = true -> strings.Contains (a ++ b) x = true.
Proof.
  intros Hb. induction a as [|c a IH]; [exact Hb|].
  cbn [append]. apply Contains_cons. exact IH.
Qed.

Lemma Contains_prefix_app (x r : string) : strings.Contains (x ++ r) x = true.
Proof. apply Contains_here. apply prefix_append. Qed.
End Substrings.

(** Finds a literal, or an operand of the format, in a message. *)
Ltac in_message :=
  first [ apply Contains_here; reflexivity
        | apply Contains_prefix_app
        | apply Contains_cons; in_message
        | apply Contains_app_r; in_message ].

Ltac message_shape :=
  match goal with
  | |- strings.Contains ?m ?x = true =>
      let m' := eval cbn in m in
      let x' := eval cbn in x in
      change (strings.Contains m' x' = true)
  end.

Section Messages.
Context {Ext : Externals}.

(** C9, amended. With no error latched, a call on a target that is not
    valid for its operation latches a message that, for [SetValue],
    [SetList] and [SetMap], names the operation and the key; for
    [SetStream] it names the operation and the target; for [SetFields] it
    carries the key. *)
Theorem routing_error_message (c : SetCall) (e : Encoder) :
  err e = None ->
  spec_valid (op_of c) (target_of c) = false ->
  exists msg : error, latched_by c e msg /\ names_as_coded c msg.
Proof.
  intros He Hbad. unfold latched_by.
  destruct c as [t k v meta|t k v meta|t k fn meta|t k fn meta|t k m meta];
    destruct t; cbn in Hbad; try discriminate Hbad;
    (eexists; split; [method_body; rewrite He; reflexivity|]);
    unfold names_as_coded, names_op_and_key; cbn [op_of];
    repeat split; message_shape; in_message.
Qed.
End Messages.

Lemma routing_error_message_witness :
  err demo.post = None
  /\ spec_valid OpSetValue HeadersTarget = false
  /\ exists msg : error,
       latched_by (CallSetValue (Ext:=demo.externals) HeadersTarget "all" "v" tt)
         demo.post msg
       /\ names_as_coded
            (CallSetValue (Ext:=demo.externals) HeadersTarget "all" "v" tt) msg.
Proof.
  split; [reflexivity|]. split; [reflexivity|].
  apply (routing_error_message
           (CallSetValue (Ext:=demo.externals) HeadersTarget "all" "v" tt)
           demo.post); reflexivity.
Defined.

(** C9 as stated fails for [SetStream]: its message does not carry the
    key. *)
Lemma stream_message_omits_key :
  ~ exists msg : error,
      latched_by (CallSetStream (Ext:=demo.externals) HeaderTarget "data" "bytes" tt)
        demo.post msg
      /\ names_op_and_key
           (CallSetStream (Ext:=demo.externals) HeaderTarget "data" "bytes" tt) msg.
Proof.
  intros [msg [Hl [_ Hkey]]]. unfold latched_by in Hl. cbv in Hl.
  injection Hl as Hmsg. subst msg. vm_compute in Hkey. discriminate Hkey.
Qed.

(** The message of [SetFields] names [SetMarshaler], not [SetFields]. *)
Example fields_message_names_SetMarshaler :
  exists msg : error,
    latched_by (CallSetFields (Ext:=demo.externals) HeaderTarget "meta" [] tt)
      demo.post msg
    /\ strings.Contains msg "SetFields" = false
    /\ strings.Contains msg "SetMarshaler" = true.
Proof.
  eexists. split; [reflexivity|]. split; vm_compute; reflexivity.
Qed.

(* ------------------------------------------------------------------ *)
(** ** The end-to-end scenarios of the specification *)

(** [POST] with a body field and a path value: the path value is on the
    request and the field is in the body. *)
Example post_body_and_path :
  fst (result demo.handler
         (build (Ext:=demo.externals) ("POST", [])
            [CallSetValue (Ext:=demo.externals) BodyTarget "name" "alice" tt;
             CallSetValue (Ext:=demo.externals) PathTarget "id" "42" tt])
         demo.empty)
  = (Some ("POST", ["id"]), Some "name", None).
Proof. vm_compute. reflexivity. Qed.

(** [GET] with a query value and a body field: both are on the request and
    there is no body. *)
Example get_redirects_body_scalar :
  fst (result demo.handler
         (build (Ext:=demo.externals) ("GET", [])
            [CallSetValue (Ext:=demo.externals) QueryTarget "filter" "active" tt;
             CallSetValue (Ext:=demo.externals) BodyTarget "name" "alice" tt])
         demo.empty)
  = (Some ("GET", ["filter"; "name"]), None, None).
Proof. vm_compute. reflexivity. Qed.

(** [POST] with a stream and nested fields: the body is ambiguous. *)
Example post_stream_and_fields :
  fst (result demo.handler
         (build (Ext:=demo.externals) ("POST", [])
            [CallSetStream (Ext:=demo.externals) PayloadTarget "data" "bytes" tt;
             CallSetFields (Ext:=demo.externals) BodyTarget "meta" [] tt])
         demo.empty)
  = (None, None, Some ambiguous_body).
Proof. vm_compute. reflexivity. Qed.

(* ------------------------------------------------------------------ *)
(** ** Running one call after the other *)

Section Execution.
Context {Ext : Externals}.

Lemma exec_pbind (h : Handler) (A B : Type) (p : Prog A) (f : A -> Prog B)
    (s : Store h) :
  exec h (pbind p f) s
  = (let '(a, s1, evs1) := exec h p s in
     let '(b, s2, evs2) := exec h (f a) s1 in
     (b, s2, (evs1 ++ evs2)%list)).
Proof.
  revert s. induction p as [a|X c k IH]; intros s; cbn [pbind exec].
  - destruct (exec h (f a) s) as [[b s2] evs2]. reflexivity.
  - destruct (handle h c s) as [x s1]. rewrite IH.
    destruct (exec h (k x) s1) as [[a s2] evs1].
    destruct (exec h (f a) s2) as [[b s3] evs2]. reflexivity.
Qed.

Lemma exec_perform_all_cons (h : Handler) (c : SetCall) (cs : list SetCall)
    (e : Encoder) (s : Store h) :
  exec h (perform_all (c :: cs) e) s
  = (let '(ae, s1, evs1) := exec h (perform c e) s in
     let '(r, s2, evs2) := exec h (perform_all cs (snd ae)) s1 in
     (r, s2, (evs1 ++ evs2)%list)).
Proof.
  cbn [perform_all]. unfold bind at 1. rewrite exec_pbind. reflexivity.
Qed.

Lemma accepted_spec_valid (c : SetCall) :
  accepted c = spec_valid (op_of c) (target_of c).
Proof.
  destruct c as [t k v meta|t k v meta|t k fn meta|t k fn meta|t k m meta];
    destruct t; reflexivity.
Qed.

(** What one call does on an encoder without a latched error. *)
Lemma exec_accepted (h : Handler) (c : SetCall) (e : Encoder) (s : Store h) :
  err e = None ->
  accepted c = true ->
  exists d : Call unit,
    perform c e = call d e
    /\ exec h (perform c e) s = ((tt, e), snd (handle h d s), [ev d]).
Proof.
  intros He Hc. rewrite accepted_spec_valid in Hc.
  destruct (valid_target_forwards c e He Hc) as [d Hd].
  exists d. split; [exact Hd|]. rewrite Hd, exec_call.
  destruct (fst (handle h d s)). reflexivity.
Qed.

Lemma exec_rejected (h : Handler) (c : SetCall) (e : Encoder) (s : Store h) :
  err e = None ->
  accepted c = false ->
  exists msg : error,
    perform c e = Ret (tt, set_err e (Some msg))
    /\ exec h (perform c e) s = ((tt, set_err e (Some msg)), s, []).
Proof.
  intros He Hc. rewrite accepted_spec_valid in Hc.
  destruct (perform_invalid c e He Hc) as [msg Hmsg].
  exists msg. split; [exact Hmsg|]. rewrite Hmsg. reflexivity.
Qed.

(** A sequence of calls on an encoder without a latched error does what
    its effective part does; the calls from the first rejected one on only
    leave the error of that one in the latch. *)
Lemma exec_perform_all (h : Handler) (cs : list SetCall) (e : Encoder)
    (s : Store h) :
  err e = None ->
  exists (e' : Encoder) (s' : Store h) (evs : list Event),
    exec h (perform_all cs e) s = ((tt, e'), s', evs)
    /\ exec h (perform_all (effective cs) e) s = ((tt, e), s', evs)
    /\ length evs = length (effective cs)
    /\ (forallb accepted cs = true -> e' = e)
    /\ (forallb accepted cs = false ->
        exists msg : error, e' = set_err e (Some msg)).
Proof.
  intros He. revert s. induction cs as [|c cs IH]; intros s.
  - exists e, s, []. cbn. repeat split; intros; try reflexivity; discriminate.
  - destruct (accepted c) eqn:Hc.
    + destruct (exec_accepted h c e s He Hc) as [d [_ Hd]].
      destruct (IH (snd (handle h d s))) as [e' [s' [evs [H1 [H2 [H3 [H4 H5]]]]]]].
      exists e', s', (ev d :: evs).
      cbn [effective]. rewrite Hc. rewrite !exec_perform_all_cons, Hd.
      cbn [snd]. rewrite H1, H2. cbn [forallb]. rewrite Hc.
      repeat split; [cbn [length]; congruence|exact H4|exact H5].
    + destruct (exec_rejected h c e s He Hc) as [msg [_ Hmsg]].
      exists (set_err e (Some msg)), s, [].
      cbn [effective]. rewrite Hc. rewrite exec_perform_all_cons, Hmsg.
      cbn [snd].
      rewrite (perform_all_latched cs (set_err e (Some msg)) msg eq_refl).
      cbn [forallb]. rewrite Hc.
      repeat split; [discriminate|]. intros _. exists msg. reflexivity.
Qed.

(** Each call is one of three things: nothing, one call on a sub-encoder,
    or a write to the latch. *)
Lemma perform_shape (c : SetCall) (e : Encoder) :
  perform c e = Ret (tt, e)
  \/ (exists d : Call unit, perform c e = call d e)
  \/ (exists msg : error, perform c e = Ret (tt, set_err e (Some msg))).
Proof.
  destruct (err e) as [x|] eqn:He.
  - left. exact (perform_latched c e x He).
  - destruct (spec_valid (op_of c) (target_of c)) eqn:Hc.
    + right; left. exact (valid_target_forwards c e He Hc).
    + right; right. exact (perform_invalid c e He Hc).
Qed.
End Execution.

(* ------------------------------------------------------------------ *)
(** ** More on routing *)

Section MoreRouting.
Context {Ext : Externals}.

Lemma exec_call_unit (h : Handler) (d : Call unit) (e : Encoder) (s : Store h) :
  exec h (call d e) s = ((tt, e), snd (handle h d s), [ev d]).
Proof.
  rewrite exec_call. destruct (fst (handle h d s)). reflexivity.
Qed.

Lemma SetStream_as_perform (t : Target) (k : string) (v : StreamMarshaler)
    (meta : Metadata) (e : Encoder) :
  SetStream t k v meta e = perform (CallSetStream t k v meta) e.
Proof. reflexivity. Qed.

(** X1. With no error latched and whatever the method, a scalar set on
    [PathTarget], [QueryTarget] or [HeaderTarget] is exactly one call,
    [SetValue] on the REST encoder with the same target, key, value and
    metadata; the encoder is left as it was. *)
Theorem scalar_structural_routing (h : Handler) (s : Store h) (e : Encoder)
    (t : Target) (k : string) (v : ValueMarshaler) (meta : Metadata) :
  err e = None ->
  t = PathTarget \/ t = QueryTarget \/ t = HeaderTarget ->
  exec h (SetValue t k v meta e) s
  = ((tt, e),
     snd (handle h (Rest (rest.SetValue (reqEncoder e) t k v meta)) s),
     [ev (Rest (rest.SetValue (reqEncoder e) t k v meta))]).
Proof.
  intros He Ht. rewrite (SetValue_structural e t k v meta He Ht).
  apply exec_call_unit.
Qed.

(** X2. With no error latched and whatever the method, a list set on
    [HeaderTarget] or [QueryTarget] and a map set on [QueryTarget] or
    [HeadersTarget] are exactly one call each, on the REST encoder, with
    the arguments as given. *)
Theorem collections_structural_routing (h : Handler) (s : Store h)
    (e : Encoder) (k : string) (fn : ListEncoderFn) (mfn : MapEncoderFn)
    (meta : Metadata) :
  err e = None ->
  (forall t : Target,
      t = HeaderTarget \/ t = QueryTarget ->
      exec h (SetList t k fn meta e) s
      = ((tt, e),
         snd (handle h (Rest (rest.SetList (reqEncoder e) t k fn meta)) s),
         [ev (Rest (rest.SetList (reqEncoder e) t k fn meta))]))
  /\ (forall t : Target,
      t = QueryTarget \/ t = HeadersTarget ->
      exec h (SetMap t k mfn meta e) s
      = ((tt, e),
         snd (handle h (Rest (rest.SetMap (reqEncoder e) t k mfn meta)) s),
         [ev (Rest (rest.SetMap (reqEncoder e) t k mfn meta))])).
Proof.
  intros He. split; intros t [Ht|Ht]; subst t;
    rewrite <- exec_call_unit; f_equal; method_body; rewrite He; reflexivity.
Qed.

(** X3. With no error latched and whatever the method, nested fields set
    on [PayloadTarget] are exactly one call, [SetFields] on the JSON
    encoder, which is given [PayloadTarget] as the target. *)
Theorem fields_payload_routing (h : Handler) (s : Store h) (e : Encoder)
    (k : string) (m : FieldMarshaler) (meta : Metadata) :
  err e = None ->
  exec h (SetFields PayloadTarget k m meta e) s
  = ((tt, e),
     snd (handle h (Json (json.SetFields (bodyEncoder e) PayloadTarget k m meta)) s),
     [ev (Json (json.SetFields (bodyEncoder e) PayloadTarget k m meta))]).
Proof.
  intros He.
  rewrite (SetFields_body e PayloadTarget k m meta He (or_introl eq_refl)).
  apply exec_call_unit.
Qed.

(** X4. Whatever the state of the encoder and whatever the target,
    [SetStream] makes no call on the JSON encoder and [SetFields] makes no
    call on the REST encoder. *)
Theorem stream_never_json_fields_never_rest (h : Handler) (s : Store h)
    (e : Encoder) (t : Target) (k : string) (v : StreamMarshaler)
    (m : FieldMarshaler) (meta : Metadata) :
  json_received h (SetStream t k v meta e) s = []
  /\ rest_received h (SetFields t k m meta e) s = [].
Proof.
  unfold json_received, rest_received, calls. split.
  - destruct (err e) as [x|] eqn:He.
    + rewrite SetStream_as_perform, (perform_latched _ e x He). reflexivity.
    + destruct t;
        try (rewrite (SetStream_other e _ k v meta He); [reflexivity|discriminate]).
      rewrite (SetStream_payload e k v meta He), exec_call. reflexivity.
  - destruct (err e) as [x|] eqn:He.
    + change (SetFields t k m meta e) with (perform (CallSetFields t k m meta) e).
      rewrite (perform_latched _ e x He). reflexivity.
    + destruct t;
        try (rewrite (SetFields_body e _ k m meta He); [|auto];
             rewrite exec_call; reflexivity);
        method_body; rewrite He; reflexivity.
Qed.

(** X5. On an encoder whose method is ["GET"], [SetValue] makes no call on
    the JSON encoder, whatever the target and whether or not an error is
    latched; on any other method, a scalar on [BodyTarget] or
    [PayloadTarget] makes no call on the REST encoder. *)
Theorem scalar_never_crosses (h : Handler) (s : Store h) (e : Encoder)
    (t : Target) (k : string) (v : ValueMarshaler) (meta : Metadata) :
  (method e = "GET" -> json_received h (SetValue t k v meta e) s = [])
  /\ (method e <> "GET" ->
      t = BodyTarget \/ t = PayloadTarget ->
      rest_received h (SetValue t k v meta e) s = []).
Proof.
  unfold json_received, rest_received, calls.
  destruct (err e) as [x|] eqn:He.
  - change (SetValue t k v meta e) with (perform (CallSetValue t k v meta) e).
    rewrite (perform_latched _ e x He). split; reflexivity.
  - split.
    + intros Hm. destruct t;
        try (rewrite (SetValue_structural e _ k v meta He); [|auto];
             rewrite exec_call; reflexivity);
        try (rewrite (SetValue_body_GET e _ k v meta He); [|auto|exact Hm];
             rewrite exec_call; reflexivity).
      method_body. rewrite He. reflexivity.
    + intros Hm Ht.
      rewrite (SetValue_body_other e t k v meta He Ht Hm), exec_call.
      reflexivity.
Qed.

(** X6. With no error latched, an accepted call is exactly one call on a
    sub-encoder and leaves the encoder, and so the empty latch, as it
    was. *)
Theorem accepted_call_forwards_once (h : Handler) (s : Store h) (c : SetCall)
    (e : Encoder) :
  err e = None ->
  accepted c = true ->
  exists d : Call unit,
    exec h (perform c e) s = ((tt, e), snd (handle h d s), [ev d]).
Proof.
  intros He Hc. destruct (exec_accepted h c e s He Hc) as [d [_ Hd]].
  exists d. exact Hd.
Qed.

(** X7. No sequence of [Set*] calls changes the method, the pointers to
    the sub-encoders or the buffer of the encoder: only the latch can
    differ afterwards. *)
Theorem set_calls_keep_wiring (h : Handler) (cs : list SetCall) (e : Encoder)
    (s : Store h) :
  method (encoder_after h (perform_all cs e) s) = method e
  /\ reqEncoder (encoder_after h (perform_all cs e) s) = reqEncoder e
  /\ bodyEncoder (encoder_after h (perform_all cs e) s) = bodyEncoder e
  /\ buf (encoder_after h (perform_all cs e) s) = buf e.
Proof.
  unfold encoder_after, result. revert e s.
  induction cs as [|c cs IH]; intros e s; [repeat split|].
  rewrite exec_perform_all_cons.
  destruct (perform_shape c e) as [Hp|[[d Hp]|[msg Hp]]]; rewrite Hp.
  - cbn [exec snd].
    specialize (IH e s). destruct (exec h (perform_all cs e) s) as [[r s2] evs2].
    exact IH.
  - rewrite exec_call_unit. cbn [snd].
    specialize (IH e (snd (handle h d s))).
    destruct (exec h (perform_all cs e) (snd (handle h d s))) as [[r s2] evs2].
    exact IH.
  - cbn [exec snd].
    specialize (IH (set_err e (Some msg)) s).
    destruct (exec h (perform_all cs (set_err e (Some msg))) s) as [[r s2] evs2].
    exact IH.
Qed.

(** X8. After a sequence of [Set*] calls the latch is empty exactly when it
    was empty before and every call of the sequence was accepted. *)
Theorem latch_empty_iff_all_accepted (h : Handler) (cs : list SetCall)
    (e : Encoder) (s : Store h) :
  err (encoder_after h (perform_all cs e) s) = None
  <-> (err e = None /\ forallb accepted cs = true).
Proof.
  unfold encoder_after, result. destruct (err e) as [x|] eqn:He.
  - rewrite (perform_all_latched cs e x He). cbn [exec fst snd]. rewrite He.
    split; [discriminate|intros [Hx _]; discriminate Hx].
  - destruct (exec_perform_all h cs e s He) as [e' [s' [evs [H1 [_ [_ [H4 H5]]]]]]].
    rewrite H1. cbn [fst snd].
    destruct (forallb accepted cs).
    + rewrite (H4 eq_refl), He. split; auto.
    + destruct (H5 eq_refl) as [msg Hmsg]. rewrite Hmsg. cbn [set_err err].
      split; [discriminate|intros [_ Hx]; discriminate Hx].
Qed.

(** X9. With no error latched, a sequence of [Set*] calls makes the calls
    of its effective part and no other: one call on a sub-encoder for each
    call before the first rejected one, and none from there on. *)
Theorem calls_from_first_rejected_are_dropped (h : Handler)
    (cs : list SetCall) (e : Encoder) (s : Store h) :
  err e = None ->
  calls h (perform_all cs e) s = calls h (perform_all (effective cs) e) s
  /\ snd (fst (exec h (perform_all cs e) s))
     = snd (fst (exec h (perform_all (effective cs) e) s))
  /\ length (calls h (perform_all cs e) s) = length (effective cs).
Proof.
  intros He. unfold calls.
  destruct (exec_perform_all h cs e s He) as [e' [s' [evs [H1 [H2 [H3 _]]]]]].
  rewrite H1, H2. repeat split. exact H3.
Qed.
End MoreRouting.

(* ------------------------------------------------------------------ *)
(** ** More on assembly *)

Section MoreAssembly.
Context {Ext : Externals}.

(** [Encode] on an encoder with another latch: the same run, and the
    encoder handed back with its latch. *)
Lemma exec_Encode_set_err (h : Handler) (s : Store h) (e : Encoder)
    (x : option error) :
  exec h (Encode (set_err e x)) s
  = (let '(re, s', evs) := exec h (Encode e) s in
     ((fst re, set_err e x), s', evs)).
Proof.
  encode_body.
  change (reqEncoder (set_err e x)) with (reqEncoder e).
  destruct (handle h (Rest (rest.Encode (reqEncoder e))) s)
    as [[[req p] [y|]] s1]; [reflexivity|].
  cbn [pbind exec fst snd notNil].
  change (bodyEncoder (set_err e x)) with (bodyEncoder e).
  destruct (handle h (Json (json.Encode (bodyEncoder e))) s1)
    as [[j [y|]] s2]; [reflexivity|].
  cbn [pbind exec fst snd notNil]. destruct p, j; reflexivity.
Qed.

(** The run of [Encode], by what the finalizations answer. *)
Lemma exec_Encode (h : Handler) (s : Store h) (e : Encoder) :
  exec h (Encode e) s
  = match snd (rest_answer h e s) with
    | Some x =>
        (((None, None, Some x), e),
         snd (handle h (Rest (rest.Encode (reqEncoder e))) s),
         [ev (Rest (rest.Encode (reqEncoder e)))])
    | None =>
        (((match snd (json_answer h e s) with
           | Some x => (None, None, Some x)
           | None =>
               if notNil (snd (fst (rest_answer h e s)))
                  && notNil (fst (json_answer h e s))
               then (None, None, Some ambiguous_body)
               else (fst (fst (rest_answer h e s)),
                     spec_body (snd (fst (rest_answer h e s)))
                       (fst (json_answer h e s)), None)
           end), e),
         snd (handle h (Json (json.Encode (bodyEncoder e)))
                (snd (handle h (Rest (rest.Encode (reqEncoder e))) s))),
         [ev (Rest (rest.Encode (reqEncoder e)));
          ev (Json (json.Encode (bodyEncoder e)))])
    end.
Proof.
  unfold rest_answer, json_answer.
  destruct (handle h (Rest (rest.Encode (reqEncoder e))) s)
    as [[[req p] [x|]] s1] eqn:Hr; cbn [fst snd].
  - exact (exec_Encode_rest_error h s s1 e req p x Hr).
  - destruct (handle h (Json (json.Encode (bodyEncoder e))) s1)
      as [[j [x|]] s2] eqn:Hj; cbn [fst snd].
    + exact (exec_Encode_json_error h s s1 s2 e req p j x Hr Hj).
    + exact (exec_Encode_finalized h s s1 s2 e req p j Hr Hj).
Qed.

(** The run of [NewEncoder]. *)
Lemma exec_NewEncoder (h : Handler) (req : Request) (s : Store h) :
  exec h (NewEncoder req) s
  = ({| method := Request_Method req;
        reqEncoder := new_rest h req s;
        bodyEncoder := new_json h req s;
        buf := None;
        err := None |},
     snd (handle h (Json json.NewEncoder)
            (snd (handle h (Rest (rest.NewEncoder req)) s))),
     [ev (Rest (rest.NewEncoder req)); ev (Json json.NewEncoder)]).
Proof.
  unfold NewEncoder, new_rest, new_json. cbn [pbind exec].
  destruct (handle h (Rest (rest.NewEncoder req)) s) as [r s1]. cbn [fst snd].
  destruct (handle h (Json json.NewEncoder) s1) as [b s2]. reflexivity.
Qed.

(** X10. Whatever is in the latch, [Encode] makes the same calls, leaves
    the same store behind the sub-encoders and returns the same request,
    body and error. *)
Theorem Encode_is_blind_to_latch (h : Handler) (s : Store h) (e : Encoder)
    (x : option error) :
  fst (result h (Encode (set_err e x)) s) = fst (result h (Encode e) s)
  /\ calls h (Encode (set_err e x)) s = calls h (Encode e) s
  /\ snd (fst (exec h (Encode (set_err e x)) s))
     = snd (fst (exec h (Encode e) s)).
Proof.
  unfold result, calls. rewrite exec_Encode_set_err.
  destruct (exec h (Encode e) s) as [[re s'] evs]. repeat split.
Qed.

(** X11. When the REST encoder fails to finalize, [Encode] returns its
    error with no request and no body, and stops: the JSON encoder is not
    asked to finalize and the store is as [rest.Encode] left it. *)
Theorem Encode_stops_at_rest_error (h : Handler) (s : Store h) (e : Encoder)
    (x : error) :
  snd (rest_answer h e s) = Some x ->
  exec h (Encode e) s
  = (((None, None, Some x), e),
     snd (handle h (Rest (rest.Encode (reqEncoder e))) s),
     [ev (Rest (rest.Encode (reqEncoder e)))]).
Proof.
  intros Hx. rewrite exec_Encode, Hx. reflexivity.
Qed.

(** X12. When the REST encoder finalizes and the JSON encoder fails to,
    [Encode] returns the error of the JSON encoder with no request and no
    body: the request the REST encoder finalized is not returned. *)
Theorem Encode_drops_request_on_json_error (h : Handler) (s : Store h)
    (e : Encoder) (x : error) :
  snd (rest_answer h e s) = None ->
  snd (json_answer h e s) = Some x ->
  fst (result h (Encode e) s) = (None, None, Some x)
  /\ calls h (Encode e) s
     = [ev (Rest (rest.Encode (reqEncoder e)));
        ev (Json (json.Encode (bodyEncoder e)))].
Proof.
  intros Hr Hj. unfold result, calls. rewrite exec_Encode, Hr, Hj.
  split; reflexivity.
Qed.

(** X13. Whenever [Encode] returns an error, it returns neither a request
    nor a body. *)
Theorem Encode_error_has_no_partial_result (h : Handler) (s : Store h)
    (e : Encoder) (req : option Request) (body : option ReadSeeker)
    (x : error) :
  fst (result h (Encode e) s) = (req, body, Some x) ->
  req = None /\ body = None.
Proof.
  unfold result. rewrite exec_Encode.
  destruct (snd (rest_answer h e s)) as [y|]; cbn [fst].
  - intros Hres. injection Hres as Hreq Hbody _. split; congruence.
  - destruct (snd (json_answer h e s)) as [y|].
    + intros Hres. injection Hres as Hreq Hbody _. split; congruence.
    + destruct (notNil (snd (fst (rest_answer h e s)))
                && notNil (fst (json_answer h e s))); intros Hres.
      * injection Hres as Hreq Hbody _. split; congruence.
      * discriminate Hres.
Qed.

(** X14. [Encode] calls [Encode] on the REST encoder first and, only if
    that returned no error, [Encode] on the JSON encoder; it makes no other
    call, on the pointers the encoder holds. *)
Theorem Encode_call_discipline (h : Handler) (s : Store h) (e : Encoder) :
  calls h (Encode e) s
  = ev (Rest (rest.Encode (reqEncoder e)))
    :: (if notNil (snd (rest_answer h e s)) then []
        else [ev (Json (json.Encode (bodyEncoder e)))]).
Proof.
  unfold calls. rewrite exec_Encode.
  destruct (snd (rest_answer h e s)); reflexivity.
Qed.

(** X15. [Encode] returns no error exactly when both finalizations return
    none and they do not both return a reader; the request it then returns
    is the one the REST encoder returned. *)
Theorem Encode_succeeds_iff (h : Handler) (s : Store h) (e : Encoder) :
  (snd (fst (result h (Encode e) s)) = None
   <-> (snd (rest_answer h e s) = None
        /\ snd (json_answer h e s) = None
        /\ notNil (snd (fst (rest_answer h e s)))
           && notNil (fst (json_answer h e s)) = false))
  /\ (snd (fst (result h (Encode e) s)) = None ->
      fst (fst (fst (result h (Encode e) s))) = fst (fst (rest_answer h e s))).
Proof.
  unfold result. rewrite exec_Encode.
  destruct (snd (rest_answer h e s)) as [y|]; cbn [fst snd].
  - split; [split|]; [discriminate|intros [Hx _]; discriminate Hx|discriminate].
  - destruct (snd (json_answer h e s)) as [y|]; cbn [fst snd].
    + split; [split|]; [discriminate|intros [_ [Hx _]]; discriminate Hx|discriminate].
    + destruct (notNil (snd (fst (rest_answer h e s)))
                && notNil (fst (json_answer h e s))); cbn [fst snd].
      * split; [split|]; [discriminate|intros [_ [_ Hx]]; discriminate Hx|discriminate].
      * split; [split|]; auto.
Qed.

(** X16. Building on a request, making a sequence of [Set*] calls and
    encoding gives the request, body and error, the calls and the store
    that the effective part of the sequence gives: a rejected call does not
    fail the build, it cuts the sequence short. *)
Theorem build_stops_at_first_rejected (h : Handler) (req : Request)
    (cs : list SetCall) (s : Store h) :
  fst (result h (build req cs) s) = fst (result h (build req (effective cs)) s)
  /\ calls h (build req cs) s = calls h (build req (effective cs)) s
  /\ snd (fst (exec h (build req cs) s))
     = snd (fst (exec h (build req (effective cs)) s)).
Proof.
  unfold result, calls, build. rewrite !exec_pbind, exec_NewEncoder.
  set (e0 := {| method := Request_Method req;
                reqEncoder := new_rest h req s;
                bodyEncoder := new_json h req s;
                buf := None; err := None |}).
  set (s0 := snd (handle h (Json json.NewEncoder)
                    (snd (handle h (Rest (rest.NewEncoder req)) s)))).
  unfold bind. rewrite !exec_pbind.
  destruct (exec_perform_all h cs e0 s0 eq_refl)
    as [e' [s' [evs [H1 [H2 [_ [H4 H5]]]]]]].
  rewrite H1, H2. cbn [fst snd].
  destruct (forallb accepted cs).
  - rewrite (H4 eq_refl).
    destruct (exec h (Encode e0) s') as [[[r e1] s2] evs2]. repeat split.
  - destruct (H5 eq_refl) as [msg Hmsg]. rewrite Hmsg, exec_Encode_set_err.
    destruct (exec h (Encode e0) s') as [[[r e1] s2] evs2]. repeat split.
Qed.

(** X17. The method that decides the redirect is the one of the request
    the encoder was built on, and the calls go to the sub-encoders built
    with it: after [NewEncoder], a scalar on [BodyTarget] or
    [PayloadTarget] is a [SetValue] on the pointer [rest.NewEncoder]
    returned if the method of the request is ["GET"], and on the pointer
    [json.NewEncoder] returned otherwise. *)
Theorem redirect_follows_request_method (h : Handler) (req : Request)
    (s : Store h) (t : Target) (k : string) (v : ValueMarshaler)
    (meta : Metadata) :
  t = BodyTarget \/ t = PayloadTarget ->
  calls h (pbind (NewEncoder req) (SetValue t k v meta)) s
  = [ev (Rest (rest.NewEncoder req));
     ev (Json json.NewEncoder);
     if (Request_Method req =? "GET")%string
     then ev (Rest (rest.SetValue (new_rest h req s) t k v meta))
     else ev (Json (json.SetValue (new_json h req s) t k v meta))].
Proof.
  intros Ht. unfold calls. rewrite exec_pbind, exec_NewEncoder.
  set (e0 := {| method := Request_Method req;
                reqEncoder := new_rest h req s;
                bodyEncoder := new_json h req s;
                buf := None; err := None |}).
  destruct (String.eqb (Request_Method req) "GET") eqn:Hm.
  - apply String.eqb_eq in Hm.
    rewrite (SetValue_body_GET e0 t k v meta eq_refl Ht Hm), exec_call.
    reflexivity.
  - apply String.eqb_neq in Hm.
    rewrite (SetValue_body_other e0 t k v meta eq_refl Ht Hm), exec_call.
    reflexivity.
Qed.

(** X18. A stream on a target other than [PayloadTarget] has the same
    effect whatever its key, value and metadata: the error it latches
    tells the target only. *)
Theorem rejected_stream_is_anonymous (h : Handler) (s : Store h) (e : Encoder)
    (t : Target) (k1 k2 : string) (v1 v2 : StreamMarshaler)
    (meta1 meta2 : Metadata) :
  t <> PayloadTarget ->
  exec h (SetStream t k1 v1 meta1 e) s = exec h (SetStream t k2 v2 meta2 e) s.
Proof.
  intros Ht. destruct (err e) as [x|] eqn:He.
  - rewrite !SetStream_as_perform, !(perform_latched _ e x He). reflexivity.
  - rewrite (SetStream_other e t k1 v1 meta1 He Ht),
      (SetStream_other e t k2 v2 meta2 He Ht). reflexivity.
Qed.
End MoreAssembly.

(* ------------------------------------------------------------------ *)
(** ** The properties above on examples *)

Lemma scalar_structural_routing_witness :
  err demo.post = None
  /\ exec demo.handler
       (SetValue (Ext:=demo.externals) PathTarget "id" "42" tt demo.post)
       demo.empty
     = ((tt, demo.post),
        snd (handle demo.handler
               (Rest (rest.SetValue (Ext:=demo.externals)
                        (reqEncoder demo.post) PathTarget "id" "42" tt))
               demo.empty),
        [ev (Rest (rest.SetValue (Ext:=demo.externals)
                     (reqEncoder demo.post) PathTarget "id" "42" tt))]).
Proof.
  split; [reflexivity|].
  apply (scalar_structural_routing demo.handler demo.empty demo.post
           PathTarget "id" "42" tt); [reflexivity|left; reflexivity].
Defined.

Lemma collections_structural_routing_witness :
  err demo.get = None
  /\ exec demo.handler
       (SetMap (Ext:=demo.externals) HeadersTarget "x-" [("a", "b")] tt demo.get)
       demo.empty
     = ((tt, demo.get),
        snd (handle demo.handler
               (Rest (rest.SetMap (Ext:=demo.externals)
                        (reqEncoder demo.get) HeadersTarget "x-" [("a", "b")] tt))
               demo.empty),
        [ev (Rest (rest.SetMap (Ext:=demo.externals)
                     (reqEncoder demo.get) HeadersTarget "x-" [("a", "b")] tt))]).
Proof.
  split; [reflexivity|].
  apply (proj2 (collections_structural_routing demo.handler demo.empty
                  demo.get "x-" ["t"] [("a", "b")] tt eq_refl) HeadersTarget).
  right; reflexivity.
Defined.

Lemma fields_payload_routing_witness :
  err demo.get = None
  /\ exec demo.handler
       (SetFields (Ext:=demo.externals) PayloadTarget "doc" [("f", "x")] tt
          demo.get)
       demo.empty
     = ((tt, demo.get),
        snd (handle demo.handler
               (Json (json.SetFields (Ext:=demo.externals)
                        (bodyEncoder demo.get) PayloadTarget "doc"
                        [("f", "x")] tt))
               demo.empty),
        [ev (Json (json.SetFields (Ext:=demo.externals)
                     (bodyEncoder demo.get) PayloadTarget "doc"
                     [("f", "x")] tt))]).
Proof.
  split; [reflexivity|].
  apply (fields_payload_routing demo.handler demo.empty demo.get
           "doc" [("f", "x")] tt).
  reflexivity.
Defined.

Lemma scalar_never_crosses_witness :
  (method demo.latched = "GET"
   /\ json_received demo.handler
        (SetValue (Ext:=demo.externals) BodyTarget "name" "alice" tt demo.latched)
        demo.only_query = [])
  /\ (method demo.lower <> "GET"
      /\ rest_received demo.handler
           (SetValue (Ext:=demo.externals) PayloadTarget "name" "alice" tt
              demo.lower)
           demo.empty = []).
Proof.
  split.
  - split; [reflexivity|].
    apply (proj1 (scalar_never_crosses demo.handler demo.only_query
                    demo.latched BodyTarget "name" "alice" tt)).
    reflexivity.
  - split; [discriminate|].
    apply (proj2 (scalar_never_crosses demo.handler demo.empty
                    demo.lower PayloadTarget "name" "alice" tt));
      [discriminate|right; reflexivity].
Defined.

Lemma accepted_call_forwards_once_witness :
  err demo.post = None
  /\ accepted (CallSetList (Ext:=demo.externals) BodyTarget "tags" ["a"] tt) = true
  /\ exists d : Call unit,
       exec demo.handler
         (perform (CallSetList (Ext:=demo.externals) BodyTarget "tags" ["a"] tt)
            demo.post) demo.empty
       = ((tt, demo.post), snd (handle demo.handler d demo.empty), [ev d]).
Proof.
  split; [reflexivity|]. split; [reflexivity|].
  apply (accepted_call_forwards_once demo.handler demo.empty
           (CallSetList (Ext:=demo.externals) BodyTarget "tags" ["a"] tt)
           demo.post); reflexivity.
Defined.

(** Of four calls, the third is rejected: two calls reach the
    sub-encoders. *)
Lemma calls_from_first_rejected_are_dropped_witness :
  err demo.post = None
  /\ length (effective failing.mixed) = 2
  /\ (calls demo.handler (perform_all failing.mixed demo.post) demo.empty
      = calls demo.handler (perform_all (effective failing.mixed) demo.post)
          demo.empty
      /\ snd (fst (exec demo.handler (perform_all failing.mixed demo.post)
                     demo.empty))
         = snd (fst (exec demo.handler
                       (perform_all (effective failing.mixed) demo.post)
                       demo.empty))
      /\ length (calls demo.handler (perform_all failing.mixed demo.post)
                   demo.empty)
         = length (effective failing.mixed)).
Proof.
  split; [reflexivity|]. split; [reflexivity|].
  apply (calls_from_first_rejected_are_dropped demo.handler failing.mixed
           demo.post demo.empty).
  reflexivity.
Defined.

Lemma Encode_stops_at_rest_error_witness :
  snd (rest_answer (failing.handler (Some "bad path") None) demo.post
         demo.with_both) = Some "bad path"
  /\ exec (failing.handler (Some "bad path") None) (Encode demo.post)
       demo.with_both
     = (((None, None, Some "bad path"), demo.post),
        snd (handle (failing.handler (Some "bad path") None)
               (Rest (rest.Encode (Ext:=demo.externals) (reqEncoder demo.post)))
               demo.with_both),
        [ev (Rest (rest.Encode (Ext:=demo.externals) (reqEncoder demo.post)))]).
Proof.
  split; [reflexivity|].
  apply (Encode_stops_at_rest_error (failing.handler (Some "bad path") None)
           demo.with_both demo.post "bad path").
  reflexivity.
Defined.

Lemma Encode_drops_request_on_json_error_witness :
  snd (rest_answer (failing.handler None (Some "bad field")) demo.post
         demo.with_stream) = None
  /\ snd (json_answer (failing.handler None (Some "bad field")) demo.post
            demo.with_stream) = Some "bad field"
  /\ (fst (result (failing.handler None (Some "bad field")) (Encode demo.post)
             demo.with_stream)
      = (None, None, Some "bad field")
      /\ calls (failing.handler None (Some "bad field")) (Encode demo.post)
           demo.with_stream
         = [ev (Rest (rest.Encode (Ext:=demo.externals) (reqEncoder demo.post)));
            ev (Json (json.Encode (Ext:=demo.externals) (bodyEncoder demo.post)))]).
Proof.
  split; [reflexivity|]. split; [reflexivity|].
  apply (Encode_drops_request_on_json_error
           (failing.handler None (Some "bad field")) demo.with_stream
           demo.post "bad field"); reflexivity.
Defined.

Lemma Encode_error_has_no_partial_result_witness :
  fst (result (failing.handler None (Some "bad field")) (Encode demo.post)
         demo.with_stream)
    = (None, None, Some "bad field")
  /\ (@None (@Request demo.externals) = None
      /\ @None (@ReadSeeker demo.externals) = None).
Proof.
  split; [reflexivity|].
  apply (Encode_error_has_no_partial_result
           (failing.handler None (Some "bad field")) demo.with_stream
           demo.post None None "bad field").
  reflexivity.
Defined.

Lemma Encode_succeeds_iff_witness :
  (snd (rest_answer demo.handler demo.get demo.only_query) = None
   /\ snd (json_answer demo.handler demo.get demo.only_query) = None
   /\ notNil (snd (fst (rest_answer demo.handler demo.get demo.only_query)))
      && notNil (fst (json_answer demo.handler demo.get demo.only_query))
      = false)
  /\ snd (fst (result demo.handler (Encode demo.get) demo.only_query)) = None.
Proof.
  assert (H : snd (rest_answer demo.handler demo.get demo.only_query) = None
              /\ snd (json_answer demo.handler demo.get demo.only_query) = None
              /\ notNil (snd (fst (rest_answer demo.handler demo.get
                                     demo.only_query)))
                 && notNil (fst (json_answer demo.handler demo.get
                                   demo.only_query))
                 = false)
    by (repeat split).
  split; [exact H|].
  exact (proj2 (proj1 (Encode_succeeds_iff demo.handler demo.only_query
                         demo.get)) H).
Defined.

Lemma redirect_follows_request_method_witness :
  calls demo.handler
    (pbind (NewEncoder (Ext:=demo.externals) ("GET", []))
       (SetValue (Ext:=demo.externals) BodyTarget "name" "alice" tt))
    demo.empty
  = [ev (Rest (rest.NewEncoder (Ext:=demo.externals) ("GET", [])));
     ev (Json (json.NewEncoder (Ext:=demo.externals)));
     if (Request_Method (Externals:=demo.externals) ("GET", []) =? "GET")%string
     then ev (Rest (rest.SetValue (Ext:=demo.externals)
                      (new_rest demo.handler ("GET", []) demo.empty)
                      BodyTarget "name" "alice" tt))
     else ev (Json (json.SetValue (Ext:=demo.externals)
                      (new_json demo.handler ("GET", []) demo.empty)
                      BodyTarget "name" "alice" tt))].
Proof.
  apply (redirect_follows_request_method demo.handler ("GET", []) demo.empty
           BodyTarget "name" "alice" tt).
  left; reflexivity.
Defined.

Lemma rejected_stream_is_anonymous_witness :
  HeaderTarget <> PayloadTarget
  /\ exec demo.handler
       (SetStream (Ext:=demo.externals) HeaderTarget "data" "bytes" tt demo.post)
       demo.empty
     = exec demo.handler
         (SetStream (Ext:=demo.externals) HeaderTarget "other" "more" tt
            demo.post)
         demo.empty.
Proof.
  split; [discriminate|].
  apply (rejected_stream_is_anonymous demo.handler demo.empty demo.post
           HeaderTarget "data" "other" "bytes" "more" tt tt).
  discriminate.
Defined.
